(** * AI-todo-app: task routes, task schema and the Groq wrapper

    A shallow embedding of [server/routes.ts], of the task schema of
    [shared/schema.ts] and of the [GroqService] class, followed by the
    properties of the specification that concern them.

    JavaScript values are modelled as the code sees them: strings are
    sequences of UTF-16 code units, numbers that go through [/], [*] and
    [Math.round] are IEEE 754 binary64 values, exceptions are explicit
    completions, and the hosted model is a function from the prompt to what
    [invoke] does, together with a log of the prompts that were sent. *)

From Stdlib Require Import List ZArith NArith Lia Bool.
From Stdlib Require Import Strings.String Strings.Ascii.
From Stdlib Require Import Numbers.DecimalString.
From Stdlib Require Numbers.DecimalZ Numbers.DecimalPos.
From Stdlib Require Import Floats.PrimFloat Floats.FloatOps Floats.SpecFloat.
From Stdlib Require Floats.FloatAxioms.
From Stdlib Require Import Numbers.Cyclic.Int63.Uint63.
Import ListNotations.

Set Implicit Arguments.

(* ================================================================== *)
(** ** The JavaScript values the program manipulates *)
(* ================================================================== *)

Module JS.

(** A string is a sequence of UTF-16 code units. *)
Definition code_unit := N.
Definition jsstring := list code_unit.

(** A literal of the source. *)
Definition lit (s : string) : jsstring :=
  map N_of_ascii (list_ascii_of_string s).
Arguments lit s%_string.

(** A literal of the source that contains double quotes, written here with
    an apostrophe in the place of each of them. *)
Definition tpl (s : string) : jsstring :=
  map (fun c => if N.eqb c 39 then 34%N else c) (lit s).
Arguments tpl s%_string.

Fixpoint str_eqb (a b : jsstring) : bool :=
  match a, b with
  | [], [] => true
  | x :: a', y :: b' => N.eqb x y && str_eqb a' b'
  | _, _ => false
  end.

(** [WhiteSpace] and [LineTerminator] of ECMAScript: what [trim] strips and
    what [parseInt] skips. *)
Definition is_whitespace (c : code_unit) : bool :=
  existsb (N.eqb c)
    [9; 10; 11; 12; 13; 32; 160; 5760; 8232; 8233; 8239; 8287; 12288; 65279]%N
  || (N.leb 8192 c && N.leb c 8202).

Fixpoint trimStart (s : jsstring) : jsstring :=
  match s with
  | [] => []
  | c :: r => if is_whitespace c then trimStart r else s
  end.

Definition trimEnd (s : jsstring) : jsstring := rev (trimStart (rev s)).

(** [String.prototype.trim]. *)
Definition trim (s : jsstring) : jsstring := trimEnd (trimStart s).

(** [s.split(sep)] for a separator of one code unit. *)
Fixpoint split (sep : code_unit) (s : jsstring) : list jsstring :=
  match s with
  | [] => [[]]
  | c :: r =>
      if N.eqb c sep then [] :: split sep r
      else match split sep r with
           | h :: t => (c :: h) :: t
           | [] => [[c]]
           end
  end.

Fixpoint startsWith (p s : jsstring) : bool :=
  match p, s with
  | [], _ => true
  | x :: p', y :: s' => N.eqb x y && startsWith p' s'
  | _ :: _, [] => false
  end.

(** [s.includes(p)]. *)
Fixpoint includes (p s : jsstring) : bool :=
  startsWith p s ||
  match s with
  | [] => false
  | _ :: r => includes p r
  end.

(** The leftmost occurrence of [p] in [s]: what comes before it and what
    comes after it. *)
Fixpoint cut (p s : jsstring) : option (jsstring * jsstring) :=
  if startsWith p s then Some ([], skipn (List.length p) s)
  else match s with
       | [] => None
       | c :: r =>
           match cut p r with
           | Some (before, after) => Some (c :: before, after)
           | None => None
           end
       end.

(** The rightmost occurrence of the code unit [c] in [s]: what comes before
    it. *)
Definition before_last (c : code_unit) (s : jsstring) : option jsstring :=
  match cut [c] (rev s) with
  | Some (_, front) => Some (rev front)
  | None => None
  end.

(** The result of [String.prototype.match] for a pattern without the [g]
    flag: the matched text and the first capture group, when the pattern has
    one. *)
Record RegExpMatchArray := {
  matched : jsstring;
  group1 : option jsstring
}.

Definition fence_open : jsstring := lit "```json" ++ [10%N].
Definition fence_close : jsstring := 10%N :: lit "```".
Definition backtick : code_unit := 96%N.
Definition lbrace : code_unit := 123%N.
Definition rbrace : code_unit := 125%N.

(** [content.match(/```json\n([\s\S]*?)\n```/)]: the leftmost opening fence
    that is followed by a closing fence, and the text up to the nearest
    closing fence (the group is lazy). An opening fence with no closing fence
    after it has none after any later opening fence either. *)
Definition match_fenced (content : jsstring) : option RegExpMatchArray :=
  match cut fence_open content with
  | None => None
  | Some (_, rest) =>
      match cut fence_close rest with
      | None => None
      | Some (inner, _) =>
          Some {| matched := fence_open ++ inner ++ fence_close;
                  group1 := Some inner |}
      end
  end.

(** [content.match(/`([\s\S]*?)`/)]: the first backtick and the text up to
    the next one. *)
Definition match_inline (content : jsstring) : option RegExpMatchArray :=
  match cut [backtick] content with
  | None => None
  | Some (_, rest) =>
      match cut [backtick] rest with
      | None => None
      | Some (inner, _) =>
          Some {| matched := backtick :: inner ++ [backtick];
                  group1 := Some inner |}
      end
  end.

(** [content.match(/{[\s\S]*}/)]: from the first opening brace to the last
    closing brace after it (the star is greedy); the pattern has no group. *)
Definition match_braces (content : jsstring) : option RegExpMatchArray :=
  match cut [lbrace] content with
  | None => None
  | Some (_, rest) =>
      match before_last rbrace rest with
      | None => None
      | Some inner =>
          Some {| matched := lbrace :: inner ++ [rbrace]; group1 := None |}
      end
  end.

(** [a || b] on the results of [match]: a match array is always truthy. *)
Definition orElse {A} (a b : option A) : option A :=
  match a with
  | Some _ => a
  | None => b
  end.

(** [jsonMatch[1] || jsonMatch[0]]: the group unless it is missing or the
    empty string. *)
Definition group_or_match (m : RegExpMatchArray) : jsstring :=
  match group1 m with
  | Some (c :: g) => c :: g
  | _ => matched m
  end.

(** *** Numbers *)

(** An array length as a Number (lengths are below 2^32, so exact). *)
Definition Number_of_nat (n : nat) : float :=
  PrimFloat.of_uint63 (Uint63.of_Z (Z.of_nat n)).

(** [Math.round] of a finite Number, as an integer: the integer nearest to
    the exact value of the argument, ties towards +infinity. (The program
    rounds quotients of array lengths only, never an infinity or a NaN, for
    which this function answers 0.) *)
Definition Math_round (x : float) : Z :=
  match Prim2SF x with
  | S754_finite s m e =>
      let v := if s then Z.neg m else Z.pos m in
      if (0 <=? e)%Z then (v * 2 ^ e)%Z
      else ((2 * v + 2 ^ (- e)) / 2 ^ (- e + 1))%Z
  | _ => 0%Z
  end.

(** The integer-valued Numbers, and what [parseInt] may answer: not a
    number, an integer that a Number holds exactly, or an infinity. (The
    model has one zero: [-0] and [0] compare equal wherever the program
    compares identifiers.) *)
Inductive Num := NaN | Int (z : Z) | Infinity (negative : bool).

Definition num_eqb (a b : Num) : bool :=
  match a, b with
  | Int x, Int y => Z.eqb x y
  | _, _ => false
  end.

(** The Number for the integer [v]: [v] itself when it has at most 53 bits;
    a longer one keeps its 53 leading bits, rounded to nearest with ties to
    the even one, and is an infinity when the rounded value reaches
    2^1024. *)
Definition Number_of_integer (v : Z) : Num :=
  let a := Z.abs v in
  let k := (Z.log2 a + 1 - 53)%Z in
  if (k <=? 0)%Z then Int v
  else
    let q := Z.shiftr a k in
    let r := Z.land a (Z.ones k) in
    let half := Z.shiftl 1 (k - 1) in
    let q := if (half <? r)%Z || ((r =? half)%Z && Z.odd q)
             then (q + 1)%Z else q in
    if (2 ^ 1024 <=? Z.shiftl q k)%Z then Infinity (v <? 0)%Z
    else Int (Z.sgn v * Z.shiftl q k).

(** The decimal digits of an integer, with a minus sign when negative. *)
Definition decimal (z : Z) : jsstring :=
  lit (NilEmpty.string_of_int (Z.to_int z)).

(** The integer that [Number::toString] prints for the Number [x] of 2^53 or
    more: of the integers whose Number is [x], one with the fewest
    significant digits; of several with as few, the nearest to [x], and of
    two as near the one whose last digit is even. [zeros] is the number of
    low digits that are still tried as zeros. *)
Fixpoint shortest (x : Z) (zeros : nat) : Z :=
  match zeros with
  | O => x
  | S fewer =>
      let p := (10 ^ Z.of_nat zeros)%Z in
      let lo := (x / p * p)%Z in
      let hi := (lo + p)%Z in
      let is_x v := num_eqb (Number_of_integer v) (Int x) in
      match is_x lo, is_x hi with
      | true, true =>
          if (x - lo <? hi - x)%Z then lo
          else if (hi - x <? x - lo)%Z then hi
          else if Z.even (x / p) then lo else hi
      | true, false => lo
      | false, true => hi
      | false, false => shortest x fewer
      end
  end.

(** The digits of [s] without the zeros at its end. *)
Definition significant (s : jsstring) : jsstring :=
  rev (let fix strip (r : jsstring) : jsstring :=
         match r with
         | 48%N :: r' => strip r'
         | _ => r
         end in
       strip (rev s)).

(** [Number::toString] of a positive integer Number: the digits in full
    below 2^53, where no other integer has the same Number; the shortest
    digits that read back as [x], filled up with zeros, below 10^21; from
    there on the exponent form, as in [1e+21] and [1.5e+21]. *)
Definition Number_toString_positive (x : Z) : jsstring :=
  if (x <? 2 ^ 53)%Z then decimal x
  else
    let v := shortest x (List.length (decimal x) - 1) in
    if (v <? 10 ^ 21)%Z then decimal v
    else
      let e := decimal (Z.of_nat (List.length (decimal v) - 1)) in
      match significant (decimal v) with
      | [] => []
      | [d] => d :: lit "e+" ++ e
      | d :: ds => d :: 46%N :: ds ++ lit "e+" ++ e
      end.

(** The text of an integer-valued Number in a template literal; an integer
    that is no Number stands for the Number nearest to it. *)
Definition Number_toString (z : Z) : jsstring :=
  match Number_of_integer z with
  | Int x =>
      if (x <? 0)%Z then 45%N :: Number_toString_positive (- x)
      else Number_toString_positive x
  | Infinity negative =>
      (if negative then [45%N] else []) ++ lit "Infinity"
  | NaN => lit "NaN"
  end.

Definition digit (radix : Z) (c : code_unit) : option Z :=
  let c := Z.of_N c in
  let v :=
    if ((48 <=? c) && (c <=? 57))%Z then (c - 48)%Z
    else if ((97 <=? c) && (c <=? 122))%Z then (c - 87)%Z
    else if ((65 <=? c) && (c <=? 90))%Z then (c - 55)%Z
    else 36%Z in
  if (v <? radix)%Z then Some v else None.

(** The longest prefix of digits of [s], read in [radix]. *)
Fixpoint digits (radix : Z) (acc : option Z) (s : jsstring) : option Z :=
  match s with
  | [] => acc
  | c :: r =>
      match digit radix c with
      | None => acc
      | Some d =>
          digits radix
            (Some (match acc with Some a => a * radix + d | None => d end)%Z) r
      end
  end.

(** [parseInt(s)] with no radix: leading white space, a sign, a [0x] prefix
    that selects radix 16, then the longest prefix of digits; [NaN] when there
    is none; the integer read is rounded to a Number. *)
Definition parseInt (s : jsstring) : Num :=
  let s := trimStart s in
  let '(neg, s) :=
    match s with
    | 45%N :: r => (true, r)
    | 43%N :: r => (false, r)
    | _ => (false, s)
    end in
  let '(radix, s) :=
    match s with
    | 48%N :: 120%N :: r => (16%Z, r)
    | 48%N :: 88%N :: r => (16%Z, r)
    | _ => (10%Z, s)
    end in
  match digits radix None s with
  | None => NaN
  | Some v => Number_of_integer (if neg then - v else v)
  end.

(** *** JSON values *)

(** What [JSON.parse] and the body parser produce. The keys of an object are
    distinct. *)

#[warnings="-register-all"]
Inductive JSON :=
| JNull
| JBool (b : bool)
| JNumber (x : float)
| JString (s : jsstring)
| JArray (items : list JSON)
| JObject (fields : list (jsstring * JSON)).

(** An own property of an object. *)
Fixpoint lookup (k : jsstring) (fields : list (jsstring * JSON)) : option JSON :=
  match fields with
  | [] => None
  | (k', v) :: r => if str_eqb k k' then Some v else lookup k r
  end.

(** What a conditional makes of a value. *)
Definition truthy (v : JSON) : bool :=
  match v with
  | JNull => false
  | JBool b => b
  | JNumber x => negb (PrimFloat.eqb x 0) && PrimFloat.eqb x x
  | JString s => negb (str_eqb s [])
  | JArray _ | JObject _ => true
  end.

(** *** Exceptions *)

Inductive ErrorName := Error | TypeError | SyntaxError | ZodError.

(** One complaint of a schema: what is wrong and the path of the field. *)
Record ZodIssue := {
  code : jsstring;
  path : list jsstring
}.

(** A thrown value. Only a [ZodError] has issues; its message is the
    library's rendering of them, which nothing in this program reads, and is
    left empty. *)
Record Exception := {
  name : ErrorName;
  message : jsstring;
  issues : list ZodIssue
}.

Definition new_Error (msg : jsstring) : Exception :=
  {| name := Error; message := msg; issues := [] |}.

(** How an evaluation ends. *)
Inductive Completion (A : Type) :=
| Normal (a : A)
| Throw (e : Exception).
Arguments Normal {A} a.
Arguments Throw {A} e.

(** [v.k]. Reading a property of [undefined] or [null] throws; a value that
    is not an object has none of the properties this program reads. *)
Definition get (v : option JSON) (k : jsstring) : Completion (option JSON) :=
  match v with
  | None | Some JNull =>
      Throw {| name := TypeError;
               message := lit "Cannot read properties of null";
               issues := [] |}
  | Some (JObject fields) => Normal (lookup k fields)
  | Some _ => Normal None
  end.

Definition is_string (v : option JSON) : bool :=
  match v with Some (JString _) => true | _ => false end.

(** [Array.isArray(v)]. *)
Definition isArray (v : option JSON) : bool :=
  match v with Some (JArray _) => true | _ => false end.

(** [typeof v === 'object']: objects, arrays and [null]. *)
Definition is_object (v : option JSON) : bool :=
  match v with
  | Some (JObject _) | Some (JArray _) | Some JNull => true
  | _ => false
  end.

(** [a && b] where evaluating either side may throw. *)
Definition and_then (a : Completion bool) (b : Completion bool) : Completion bool :=
  match a with
  | Normal true => b
  | _ => a
  end.

(** [items.every(f)]. *)
Fixpoint every (f : JSON -> Completion bool) (items : list JSON) : Completion bool :=
  match items with
  | [] => Normal true
  | x :: r =>
      match f x with
      | Normal true => every f r
      | other => other
      end
  end.

(** *** Computations with a state that may throw *)

Definition M (S A : Type) : Type := S -> Completion A * S.

Definition ret {S A} (a : A) : M S A := fun s => (Normal a, s).

Definition bind {S A B} (m : M S A) (k : A -> M S B) : M S B :=
  fun s =>
    match m s with
    | (Normal a, s') => k a s'
    | (Throw e, s') => (Throw e, s')
    end.

Definition throw {S A} (e : Exception) : M S A := fun s => (Throw e, s).

(** [try { body } catch (e) { handler }]: what the body did to the state
    before it threw stays done. *)
Definition try_catch {S A} (body : M S A) (handler : Exception -> M S A) : M S A :=
  fun s =>
    match body s with
    | (Normal a, s') => (Normal a, s')
    | (Throw e, s') => handler e s'
    end.

Definition lift {S A} (c : Completion A) : M S A := fun s => (c, s).

End JS.

Import JS.

Declare Scope js_scope.
Delimit Scope js_scope with js.
Notation "x <- c1 ;; c2" := (bind c1 (fun x => c2))
  (at level 61, c1 at next level, right associativity) : js_scope.
Notation "c1 ;;; c2" := (bind c1 (fun _ => c2))
  (at level 61, right associativity) : js_scope.

Open Scope js_scope.

(* ================================================================== *)
(** ** shared/schema.ts: users, tasks and the task payload *)
(* ================================================================== *)

(** A [Date]: its time value, or [None] for an invalid date. *)
Definition JSDate := option Z.

(** A value that may be missing ([undefined]) or [null]. *)
Inductive Nullish (A : Type) :=
| Undefined
| Null
| Value (a : A).
Arguments Undefined {A}.
Arguments Null {A}.
Arguments Value {A} a.

(** What a nullable column holds for it. *)
Definition column {A} (v : Nullish A) : option A :=
  match v with
  | Value a => Some a
  | _ => None
  end.

(** A row of the [users] table. *)
Module User.
Record t := {
  id : Z;
  username : jsstring;
  password : jsstring;
  createdAt : JSDate
}.
End User.

(** A row of the [tasks] table; a nullable column is an option. *)
Module Task.
Record t := {
  id : Z;
  userId : Z;
  title : jsstring;
  description : option jsstring;
  priority : jsstring;
  dueDate : option JSDate;
  completed : option bool;
  aiTags : option (list jsstring);
  aiNotes : option jsstring;
  createdAt : option JSDate
}.
End Task.

(** [t.completed] as a condition. *)
Definition is_completed (t : Task.t) : bool :=
  match Task.completed t with
  | Some b => b
  | None => false
  end.

(** The output of [insertTaskSchema]: the four picked fields and nothing
    else (unknown keys of the payload are stripped). *)
Module InsertTask.
Record t := {
  title : jsstring;
  description : Nullish jsstring;
  priority : jsstring;
  dueDate : Nullish JSDate
}.
End InsertTask.

(** What [JSON.stringify] is applied to. *)
Inductive Serializable :=
| OfTasks (tasks : list Task.t)
| OfUser (user : User.t)
| OfJSON (v : JSON).

(** The built-ins whose results the program only passes on: [JSON.parse]
    (which throws a [SyntaxError] on text that is not JSON),
    [JSON.stringify] and the [Date] constructor applied to a string. *)
Record Runtime := {
  JSON_parse : jsstring -> Completion JSON;
  JSON_stringify : Serializable -> jsstring;
  new_Date : jsstring -> JSDate
}.

Module Schema.

Definition issue (c : string) (field : list jsstring) : ZodIssue :=
  {| code := lit c; path := field |}.

(** [title: text("title").notNull()]: a string is required. *)
Definition title_schema (v : option JSON) : list ZodIssue + jsstring :=
  match v with
  | Some (JString s) => inr s
  | _ => inl [issue "invalid_type" [lit "title"]]
  end.

(** [description: text("description")]: a nullable column, hence an
    optional and nullable string. *)
Definition description_schema (v : option JSON) : list ZodIssue + Nullish jsstring :=
  match v with
  | None => inr Undefined
  | Some JNull => inr Null
  | Some (JString s) => inr (Value s)
  | Some _ => inl [issue "invalid_type" [lit "description"]]
  end.

Definition priorities : list jsstring := [lit "high"; lit "medium"; lit "low"].

(** [priority: z.enum(["high", "medium", "low"])]. *)
Definition priority_schema (v : option JSON) : list ZodIssue + jsstring :=
  match v with
  | Some (JString s) =>
      if existsb (str_eqb s) priorities then inr s
      else inl [issue "invalid_enum_value" [lit "priority"]]
  | _ => inl [issue "invalid_type" [lit "priority"]]
  end.

(** [dueDate: z.union([z.date(), z.string()]).transform(...).nullish()]: a
    payload that arrived as JSON holds no [Date], so the value is missing,
    [null], or a string that the transform hands to the [Date]
    constructor. *)
Definition dueDate_schema (rt : Runtime) (v : option JSON)
  : list ZodIssue + Nullish JSDate :=
  match v with
  | None => inr Undefined
  | Some JNull => inr Null
  | Some (JString s) => inr (Value (new_Date rt s))
  | Some _ => inl [issue "invalid_union" [lit "dueDate"]]
  end.

Definition issues_of {A} (r : list ZodIssue + A) : list ZodIssue :=
  match r with
  | inl l => l
  | inr _ => []
  end.

Definition zodError (l : list ZodIssue) : Exception :=
  {| name := ZodError; message := []; issues := l |}.

(** [insertTaskSchema.parse(body)]: the validated data, or a [ZodError]
    that lists every field that failed. *)
Definition insertTaskSchema_parse (rt : Runtime) (body : JSON)
  : Completion InsertTask.t :=
  match body with
  | JObject fields =>
      let t := title_schema (lookup (lit "title") fields) in
      let d := description_schema (lookup (lit "description") fields) in
      let p := priority_schema (lookup (lit "priority") fields) in
      let dd := dueDate_schema rt (lookup (lit "dueDate") fields) in
      match t, d, p, dd with
      | inr t, inr d, inr p, inr dd =>
          Normal {| InsertTask.title := t; InsertTask.description := d;
                    InsertTask.priority := p; InsertTask.dueDate := dd |}
      | _, _, _, _ =>
          Throw (zodError (issues_of t ++ issues_of d ++ issues_of p ++ issues_of dd))
      end
  | _ => Throw (zodError [issue "invalid_type" []])
  end.

End Schema.

(* ================================================================== *)
(** ** The task store *)
(* ================================================================== *)

(** What [routes.ts] hands to [storage.createTask]: the validated payload
    spread, the owner and the tags. *)
Module NewTask.
Record t := {
  data : InsertTask.t;
  userId : Z;
  aiTags : list jsstring
}.
End NewTask.

(** The four operations [routes.ts] calls on [storage], with the arguments
    it passes and the results it reads. The route handlers below are written
    against this interface. *)
Record IStorage (Store : Type) := {
  getTasksByUserId : Z -> Store -> list Task.t;
  createTask : NewTask.t -> Store -> Task.t * Store;
  (** the updated task, or nothing when there is no task to update *)
  updateTask : Num -> JSON -> Store -> option Task.t * Store;
  deleteTask : Num -> Store -> Store
}.

Module DatabaseStorage.

(** Modelled from the spec: the [tasks] table behind [server/storage.ts],
    which is not among the sources. The rows in insertion order, the next
    value of the [serial] identifier and the time [defaultNow()] yields. *)
Record Database := {
  rows : list Task.t;
  next_id : Z;
  now : JSDate
}.

(** Modelled from the spec: a row is found by its identifier; [NaN] is the
    identifier of no row. *)
Definition has_id (id : Num) (t : Task.t) : bool :=
  num_eqb id (Int (Task.id t)).

(** Modelled from the spec: list-by-user of [server/storage.ts], the tasks
    of one owner in insertion order. *)
Definition getTasksByUserId (userId : Z) (db : Database) : list Task.t :=
  filter (fun t => Z.eqb (Task.userId t) userId) (rows db).

(** Modelled from the spec: create of [server/storage.ts], which assigns
    the identifier and the timestamp, takes the tags as computed, and leaves
    the completion flag at its default. *)
Definition createTask (new : NewTask.t) (db : Database) : Task.t * Database :=
  let d := NewTask.data new in
  let task :=
    {| Task.id := next_id db;
       Task.userId := NewTask.userId new;
       Task.title := InsertTask.title d;
       Task.description := column (InsertTask.description d);
       Task.priority := InsertTask.priority d;
       Task.dueDate := column (InsertTask.dueDate d);
       Task.completed := Some false;
       Task.aiTags := Some (NewTask.aiTags new);
       Task.aiNotes := None;
       Task.createdAt := Some (now db) |} in
  (task, {| rows := rows db ++ [task]; next_id := next_id db + 1; now := now db |}).

(** Modelled from the spec: the strings of an array, for the [text[]]
    column of the tags. *)
Definition strings_of (items : list JSON) : list jsstring :=
  flat_map (fun v => match v with JString s => [s] | _ => [] end) items.

(** Modelled from the spec: the columns a partial update sets, those the
    given object names; the identifier, the owner and the timestamps are left
    as they are. *)
Definition assign (updates : JSON) (t : Task.t) : Task.t :=
  match updates with
  | JObject fields =>
      {| Task.id := Task.id t;
         Task.userId := Task.userId t;
         Task.title :=
           match lookup (lit "title") fields with
           | Some (JString s) => s
           | _ => Task.title t
           end;
         Task.description :=
           match lookup (lit "description") fields with
           | Some (JString s) => Some s
           | Some JNull => None
           | _ => Task.description t
           end;
         Task.priority :=
           match lookup (lit "priority") fields with
           | Some (JString s) => s
           | _ => Task.priority t
           end;
         Task.dueDate := Task.dueDate t;
         Task.completed :=
           match lookup (lit "completed") fields with
           | Some (JBool b) => Some b
           | Some JNull => None
           | _ => Task.completed t
           end;
         Task.aiTags :=
           match lookup (lit "aiTags") fields with
           | Some (JArray items) => Some (strings_of items)
           | Some JNull => None
           | _ => Task.aiTags t
           end;
         Task.aiNotes :=
           match lookup (lit "aiNotes") fields with
           | Some (JString s) => Some s
           | Some JNull => None
           | _ => Task.aiNotes t
           end;
         Task.createdAt := Task.createdAt t |}
  | _ => t
  end.

(** Modelled from the spec: partial update by identifier of
    [server/storage.ts], with a not-found signal when no row has the
    identifier. *)
Definition updateTask (id : Num) (updates : JSON) (db : Database)
  : option Task.t * Database :=
  match find (has_id id) (rows db) with
  | None => (None, db)
  | Some t =>
      (Some (assign updates t),
       {| rows := map (fun r => if has_id id r then assign updates r else r) (rows db);
          next_id := next_id db;
          now := now db |})
  end.

(** Modelled from the spec: delete by identifier of [server/storage.ts],
    no error when the row is already absent. *)
Definition deleteTask (id : Num) (db : Database) : Database :=
  {| rows := filter (fun r => negb (has_id id r)) (rows db);
     next_id := next_id db;
     now := now db |}.

(** Modelled from the spec: the [storage] object [routes.ts] imports. *)
Definition storage : IStorage Database :=
  Build_IStorage getTasksByUserId createTask updateTask deleteTask.

End DatabaseStorage.

(* ================================================================== *)
(** ** server/groq.ts: the wrapper around the hosted model *)
(* ================================================================== *)

Inductive BaseMessage :=
| SystemMessage (content : jsstring)
| HumanMessage (content : jsstring).

(** [response.content]: a string, or a list of content parts. *)
Inductive MessageContent :=
| Text (s : jsstring)
| Parts (parts : JSON).

(** The hosted model: a call resolves with a message or rejects. *)
Record ChatGroq := {
  answer : list BaseMessage -> Completion MessageContent
}.

(** The prompts sent to the hosted model so far, oldest first. *)
Definition Log := list (list BaseMessage).

(** [await model.invoke(messages)]: one external call. *)
Definition invoke (model : ChatGroq) (messages : list BaseMessage)
  : M Log MessageContent :=
  fun sent => (answer model messages, sent ++ [messages]).

Record GroqService := {
  model : ChatGroq
}.

Module Groq.

Definition nl : jsstring := [10%N].

(** [Math.round((completed / total) * 100)]. *)
Definition percentage (completed total : nat) : Z :=
  Math_round
    (PrimFloat.mul
       (PrimFloat.div (Number_of_nat completed) (Number_of_nat total))
       100%float).

Definition report_systemPrompt : jsstring :=
  tpl "You are an AI assistant that generates comprehensive task management reports.
        Create a detailed report that includes task analysis, productivity insights, and user profile analysis.
        Format the response as a JSON object with the following structure:
        {
          'executiveSummary': {
            'summary': 'Clear overview of task management status',
            'metrics': ['key metrics as an array of strings']
          },
          'taskAnalysis': 'Detailed analysis of task patterns and completion',
          'productivityMetrics': 'Analysis of productivity trends',
          'workStyleAnalysis': 'Analysis of user work style and habits',
          'recommendations': ['Array of actionable recommendations']
        }".

Definition insights_systemPrompt : jsstring :=
  tpl "You are an AI assistant that analyzes tasks and provides actionable insights. 
        Return a JSON object with this exact structure:
        {
          'taskGroups': [{'name': 'group name', 'tasks': ['task title 1', 'task title 2']}],
          'recommendations': ['specific recommendation 1', 'specific recommendation 2'],
          'completionRate': 'X%'
        }".

Definition tags_systemPrompt : jsstring :=
  lit "You are an AI assistant that generates relevant, concise tags for tasks. Return only 2-3 tags separated by commas, no other text.".

Section Service.

Variable rt : Runtime.
Variable this : GroqService.

(** [typeof response.content === 'string' ? response.content :
    JSON.stringify(response.content)]. *)
Definition content_of (response : MessageContent) : jsstring :=
  match response with
  | Text s => s
  | Parts parts => JSON_stringify rt (OfJSON parts)
  end.

(** The three patterns, in the order the source tries them. *)
Definition jsonMatch (content : jsstring) : option RegExpMatchArray :=
  orElse (match_fenced content)
    (orElse (match_inline content) (match_braces content)).

(** A property of [v] put to a test. *)
Definition has (v : JSON) (k : string) (test : option JSON -> bool)
  : Completion bool :=
  match get (Some v) (lit k) with
  | Normal p => Normal (test p)
  | Throw e => Throw e
  end.

Definition validateReportStructure (report : JSON) : bool :=
  let checks :=
    and_then (Normal (truthy report))
   (and_then (has report "executiveSummary" is_object)
   (and_then
      match get (Some report) (lit "executiveSummary") with
      | Normal executiveSummary =>
          match get executiveSummary (lit "summary") with
          | Normal p => Normal (is_string p)
          | Throw e => Throw e
          end
      | Throw e => Throw e
      end
   (and_then
      match get (Some report) (lit "executiveSummary") with
      | Normal executiveSummary =>
          match get executiveSummary (lit "metrics") with
          | Normal p => Normal (isArray p)
          | Throw e => Throw e
          end
      | Throw e => Throw e
      end
   (and_then (has report "taskAnalysis" is_string)
   (and_then (has report "productivityMetrics" is_string)
   (and_then (has report "workStyleAnalysis" is_string)
             (has report "recommendations" isArray))))))) in
  match checks with
  | Normal b => b
  | Throw _ => false
  end.

Definition getFallbackReport (tasks : list Task.t) : JSON :=
  let completedTasks := filter is_completed tasks in
  let completionRate :=
    if (0 <? List.length tasks)%nat
    then percentage (List.length completedTasks) (List.length tasks)
    else 0%Z in
  JObject
    [ (lit "executiveSummary",
       JObject
         [ (lit "summary",
            JString (lit "Task Management Overview (Generated from fallback)"));
           (lit "metrics",
            JArray
              [ JString (lit "Total Tasks: "
                           ++ Number_toString (Z.of_nat (List.length tasks)));
                JString (lit "Completed Tasks: "
                           ++ Number_toString (Z.of_nat (List.length completedTasks)));
                JString (lit "Completion Rate: "
                           ++ Number_toString completionRate ++ lit "%");
                JString (lit "High Priority Tasks: "
                           ++ Number_toString
                                (Z.of_nat
                                   (List.length
                                      (filter
                                         (fun t => str_eqb (Task.priority t) (lit "high"))
                                         tasks)))) ]) ]);
      (lit "taskAnalysis",
       JString (lit "A detailed task analysis could not be generated at this time. Please try again later."));
      (lit "productivityMetrics",
       JString (lit "Current completion rate is " ++ Number_toString completionRate
                  ++ lit "%. Task metrics are being calculated."));
      (lit "workStyleAnalysis",
       JString (lit "Work style analysis is temporarily unavailable. Please try again later."));
      (lit "recommendations",
       JArray
         [ JString (lit "Consider reviewing and updating task priorities");
           JString (lit "Regular task list maintenance is recommended");
           JString (lit "Set realistic deadlines for better task management") ]) ].

Definition report_userPrompt (tasks : list Task.t) (insights : JSON) (user : User.t)
  : jsstring :=
  lit "Generate a comprehensive report based on:
        User: " ++ JSON_stringify rt (OfUser user) ++ lit "
        Tasks: " ++ JSON_stringify rt (OfTasks tasks) ++ lit "
        Insights: " ++ JSON_stringify rt (OfJSON insights) ++ lit "

        Include:
        1. Executive summary of task management
        2. Detailed task analysis and patterns
        3. Productivity metrics and trends
        4. User work style analysis
        5. Strategic recommendations

        Ensure all responses are professional and actionable.
        Return ONLY valid JSON matching the specified structure.".

Definition generateReport (tasks : list Task.t) (insights : JSON) (user : User.t)
  : M Log JSON :=
  try_catch
    (if (List.length tasks =? 0)%nat then ret (getFallbackReport tasks)
     else
       let systemPrompt := SystemMessage report_systemPrompt in
       let userPrompt := HumanMessage (report_userPrompt tasks insights user) in
       response <- invoke (model this) [systemPrompt; userPrompt] ;;
       try_catch
         (let content := content_of response in
          match jsonMatch content with
          | None => throw (new_Error (lit "Invalid AI response format"))
          | Some jsonMatch =>
              let jsonString := group_or_match jsonMatch in
              parsedResponse <- lift (JSON_parse rt (trim jsonString)) ;;
              if negb (validateReportStructure parsedResponse)
              then throw (new_Error (lit "Invalid report structure received from AI"))
              else ret parsedResponse
          end)
         (fun parseError =>
            throw (new_Error (lit "Failed to parse AI response: " ++ message parseError))))
    (fun error => ret (getFallbackReport tasks)).

Definition validateInsightsStructure (insights : JSON) : Completion bool :=
  and_then (Normal (truthy insights))
 (and_then (has insights "taskGroups" isArray)
 (and_then
    match get (Some insights) (lit "taskGroups") with
    | Normal (Some (JArray taskGroups)) =>
        every
          (fun group =>
             and_then (has group "name" is_string) (has group "tasks" isArray))
          taskGroups
    | Normal _ => Normal false
    | Throw e => Throw e
    end
 (and_then (has insights "recommendations" isArray)
           (has insights "completionRate" is_string)))).

Definition getFallbackInsights (tasks : list Task.t) : JSON :=
  let completedTasks := filter is_completed tasks in
  let completionRate :=
    if (0 <? List.length tasks)%nat
    then percentage (List.length completedTasks) (List.length tasks)
    else 0%Z in
  JObject
    [ (lit "taskGroups",
       JArray
         [ JObject
             [ (lit "name", JString (lit "All Tasks"));
               (lit "tasks", JArray (map (fun t => JString (Task.title t)) tasks)) ] ]);
      (lit "recommendations",
       JArray
         [ JString (lit "Focus on completing high-priority tasks first");
           JString (lit "Review and update task priorities regularly") ]);
      (lit "completionRate", JString (Number_toString completionRate ++ lit "%")) ].

(** What [generateTaskInsights] returns for no tasks. *)
Definition noTasksInsights : JSON :=
  JObject
    [ (lit "taskGroups", JArray []);
      (lit "recommendations",
       JArray [ JString (lit "Start by adding some tasks to get AI-powered insights") ]);
      (lit "completionRate", JString (lit "0%")) ].

Definition generateTaskInsights (tasks : list Task.t) : M Log JSON :=
  if (List.length tasks =? 0)%nat then ret noTasksInsights
  else
    try_catch
      (let systemPrompt := SystemMessage insights_systemPrompt in
       let userPrompt :=
         HumanMessage
           (lit "Analyze these tasks and provide insights: "
              ++ JSON_stringify rt (OfTasks tasks)) in
       response <- invoke (model this) [systemPrompt; userPrompt] ;;
       try_catch
         (let content := content_of response in
          match jsonMatch content with
          | None => throw (new_Error (lit "No JSON found in response"))
          | Some jsonMatch =>
              let jsonString := group_or_match jsonMatch in
              parsedResponse <- lift (JSON_parse rt jsonString) ;;
              valid <- lift (validateInsightsStructure parsedResponse) ;;
              if negb valid
              then throw (new_Error (lit "Invalid insights structure"))
              else ret parsedResponse
          end)
         (fun parseError => ret (getFallbackInsights tasks)))
      (fun error => ret (getFallbackInsights tasks)).

Definition generateTaskTags (title description : jsstring) : M Log (list jsstring) :=
  try_catch
    (let systemPrompt := SystemMessage tags_systemPrompt in
     let userPrompt :=
       HumanMessage
         (lit "Generate relevant tags for this task:
        Title: " ++ title ++ lit "
        Description: " ++ description) in
     response <- invoke (model this) [systemPrompt; userPrompt] ;;
     let content := content_of response in
     let tags :=
       firstn 3
         (filter
            (fun tag => (0 <? List.length tag)%nat && negb (includes nl tag))
            (map trim (split 44%N content))) in
     ret (if (0 <? List.length tags)%nat then tags else [lit "task"]))
    (fun error => ret [lit "task"]).

End Service.

End Groq.

(* ================================================================== *)
(** ** server/routes.ts *)
(* ================================================================== *)

(** What a handler reads of a request: the user of the session
    ([req.isAuthenticated()] holds exactly when there is one), the [:id]
    segment of the path and the parsed body. *)
Record Request := {
  user : option User.t;
  params_id : jsstring;
  body : JSON
}.

(** What is handed to [res.json]. *)
Inductive Body :=
| TaskList (tasks : list Task.t)
| OneTask (task : Task.t)
| Data (v : JSON).

Inductive Response :=
| sendStatus (status : Z)
| json (status : Z) (b : Body).

Inductive Route :=
| GET_api_tasks
| POST_api_tasks
| PATCH_api_tasks_id
| DELETE_api_tasks_id
| GET_api_insights
| POST_api_insights_refresh
| GET_api_report.

(** The state a request runs in: the store and the prompts sent so far. *)
Record World (Store : Type) := {
  db : Store;
  sent : Log
}.

Module Routes.

Section Handlers.

Variable Store : Type.
Variable storage : IStorage Store.
Variable rt : Runtime.
Variable groqService : GroqService.

Definition Handler := Request -> M (World Store) Response.

(** A read of the store. *)
Definition query {A} (f : Store -> A) : M (World Store) A :=
  fun w => (Normal (f (db w)), w).

(** A write to the store. *)
Definition command {A} (f : Store -> A * Store) : M (World Store) A :=
  fun w => let '(a, d) := f (db w) in (Normal a, {| db := d; sent := sent w |}).

(** A call into the Groq wrapper, which sees the log only. *)
Definition groq {A} (m : M Log A) : M (World Store) A :=
  fun w => let '(r, l) := m (sent w) in (r, {| db := db w; sent := l |}).

Definition get_tasks : Handler := fun req =>
  match user req with
  | None => ret (sendStatus 401)
  | Some u =>
      tasks <- query (getTasksByUserId storage (User.id u)) ;;
      ret (json 200 (TaskList tasks))
  end.

Definition post_tasks : Handler := fun req =>
  match user req with
  | None => ret (sendStatus 401)
  | Some u =>
      validatedData <- lift (Schema.insertTaskSchema_parse rt (body req)) ;;
      aiTags <- groq (Groq.generateTaskTags rt groqService
                        (InsertTask.title validatedData)
                        (match InsertTask.description validatedData with
                         | Value (c :: d) => c :: d
                         | _ => []
                         end)) ;;
      task <- command (createTask storage
                         {| NewTask.data := validatedData;
                            NewTask.userId := User.id u;
                            NewTask.aiTags := aiTags |}) ;;
      ret (json 201 (OneTask task))
  end.

Definition patch_task : Handler := fun req =>
  match user req with
  | None => ret (sendStatus 401)
  | Some _ =>
      task <- command (updateTask storage (parseInt (params_id req)) (body req)) ;;
      match task with
      | None => ret (sendStatus 404)
      | Some task => ret (json 200 (OneTask task))
      end
  end.

Definition delete_task : Handler := fun req =>
  match user req with
  | None => ret (sendStatus 401)
  | Some _ =>
      command (fun d => (tt, deleteTask storage (parseInt (params_id req)) d)) ;;;
      ret (sendStatus 204)
  end.

Definition get_insights : Handler := fun req =>
  match user req with
  | None => ret (sendStatus 401)
  | Some u =>
      tasks <- query (getTasksByUserId storage (User.id u)) ;;
      insights <- groq (Groq.generateTaskInsights rt groqService tasks) ;;
      ret (json 200 (Data insights))
  end.

Definition post_insights_refresh : Handler := fun req =>
  match user req with
  | None => ret (sendStatus 401)
  | Some u =>
      tasks <- query (getTasksByUserId storage (User.id u)) ;;
      insights <- groq (Groq.generateTaskInsights rt groqService tasks) ;;
      ret (json 200 (Data insights))
  end.

Definition no_tasks_message : JSON :=
  JObject
    [ (lit "message",
       JString (lit "No tasks found. Please add some tasks before generating a report.")) ].

Definition get_report : Handler := fun req =>
  match user req with
  | None => ret (sendStatus 401)
  | Some u =>
      try_catch
        (tasks <- query (getTasksByUserId storage (User.id u)) ;;
         if (List.length tasks =? 0)%nat
         then ret (json 400 (Data no_tasks_message))
         else
           insights <- groq (Groq.generateTaskInsights rt groqService tasks) ;;
           report <- groq (Groq.generateReport rt groqService tasks insights u) ;;
           if negb (truthy report)
           then throw (new_Error (lit "Failed to generate report: No report data received"))
           else ret (json 200 (Data report)))
        (fun error =>
           ret (json 500
                  (Data
                     (JObject
                        [ (lit "message", JString (lit "Failed to generate report"));
                          (lit "details",
                           JString
                             (match message error with
                              | [] => lit "An unexpected error occurred"
                              | m => m
                              end)) ]))))
  end.

Definition registerRoutes (route : Route) : Handler :=
  match route with
  | GET_api_tasks => get_tasks
  | POST_api_tasks => post_tasks
  | PATCH_api_tasks_id => patch_task
  | DELETE_api_tasks_id => delete_task
  | GET_api_insights => get_insights
  | POST_api_insights_refresh => post_insights_refresh
  | GET_api_report => get_report
  end.

End Handlers.

End Routes.

(* ================================================================== *)
(** ** client: the report download and the toggle of a task *)
(* ================================================================== *)

Module Client.

(** [parts.join(sep)] for an array of strings. *)
Fixpoint join (sep : jsstring) (parts : list jsstring) : jsstring :=
  match parts with
  | [] => []
  | [x] => x
  | x :: r => x ++ sep ++ join sep r
  end.

Definition cannot_convert : Exception :=
  {| name := TypeError;
     message := lit "Cannot convert object to primitive value";
     issues := [] |}.

Definition not_a_function : Exception :=
  {| name := TypeError; message := lit "map is not a function"; issues := [] |}.

Section Text.

(** The text of a Number, which this program only passes on. *)
Variable Number_text : float -> jsstring.

(** The text of a value in a template literal, for a value that came out of
    JSON. An array is the texts of its elements joined by commas, [null]
    counting for nothing; an object is ["[object Object]"], unless it has a
    [toString] of its own: that one is no function, and the conversion
    throws. *)
Fixpoint ToString (v : JSON) : Completion jsstring :=
  match v with
  | JNull => Normal (lit "null")
  | JBool true => Normal (lit "true")
  | JBool false => Normal (lit "false")
  | JNumber x => Normal (Number_text x)
  | JString s => Normal s
  | JArray items =>
      let elements :=
        (fix elements (l : list JSON) : Completion (list jsstring) :=
           match l with
           | [] => Normal []
           | x :: r =>
               match match x with JNull => Normal [] | _ => ToString x end with
               | Throw e => Throw e
               | Normal t =>
                   match elements r with
                   | Throw e => Throw e
                   | Normal ts => Normal (t :: ts)
                   end
               end
           end) items in
      match elements with
      | Throw e => Throw e
      | Normal ts => Normal (join [44%N] ts)
      end
  | JObject fields =>
      match lookup (lit "toString") fields with
      | Some _ => Throw cannot_convert
      | None => Normal (lit "[object Object]")
      end
  end.

(** [${e}] where [e] may be [undefined]. *)
Definition interpolate (v : option JSON) : Completion jsstring :=
  match v with
  | None => Normal (lit "undefined")
  | Some v => ToString v
  end.

(** [items.map(x => `- ${x}`)]. *)
Fixpoint bullets (items : list JSON) : Completion (list jsstring) :=
  match items with
  | [] => Normal []
  | x :: r =>
      match ToString x with
      | Throw e => Throw e
      | Normal t =>
          match bullets r with
          | Throw e => Throw e
          | Normal ts => Normal ((lit "- " ++ t) :: ts)
          end
      end
  end.

(** [v.map(x => `- ${x}`).join('\n')]: only an array has a [map]. *)
Definition bullet_list (v : option JSON) : Completion jsstring :=
  match v with
  | Some (JArray items) =>
      match bullets items with
      | Throw e => Throw e
      | Normal ts => Normal (join [10%N] ts)
      end
  | _ => Throw not_a_function
  end.

(** What the page shows and has done. *)
Record Toast := {
  toast_title : jsstring;
  toast_description : jsstring;
  destructive : bool
}.

Record Page := {
  isDownloading : bool;
  (** the files handed to the browser, as name and content *)
  downloads : list (jsstring * jsstring);
  toasts : list Toast
}.

Definition setIsDownloading (b : bool) : M Page unit :=
  fun p => (Normal tt, {| isDownloading := b; downloads := downloads p; toasts := toasts p |}).

Definition download (file content : jsstring) : M Page unit :=
  fun p => (Normal tt, {| isDownloading := isDownloading p;
                          downloads := downloads p ++ [(file, content)];
                          toasts := toasts p |}).

Definition toast (t : Toast) : M Page unit :=
  fun p => (Normal tt, {| isDownloading := isDownloading p;
                          downloads := downloads p;
                          toasts := toasts p ++ [t] |}).

(** The template of the downloaded file, its substitutions evaluated from
    left to right. *)
Definition report_content (report : JSON) : Completion jsstring :=
  match get (Some report) (lit "executiveSummary") with Throw e => Throw e | Normal executiveSummary =>
  match get executiveSummary (lit "summary") with Throw e => Throw e | Normal summary =>
  match interpolate summary with Throw e => Throw e | Normal summary =>
  match get executiveSummary (lit "metrics") with Throw e => Throw e | Normal metrics =>
  match bullet_list metrics with Throw e => Throw e | Normal metrics =>
  match get (Some report) (lit "taskAnalysis") with Throw e => Throw e | Normal taskAnalysis =>
  match interpolate taskAnalysis with Throw e => Throw e | Normal taskAnalysis =>
  match get (Some report) (lit "productivityMetrics") with Throw e => Throw e | Normal productivityMetrics =>
  match interpolate productivityMetrics with Throw e => Throw e | Normal productivityMetrics =>
  match get (Some report) (lit "workStyleAnalysis") with Throw e => Throw e | Normal workStyleAnalysis =>
  match interpolate workStyleAnalysis with Throw e => Throw e | Normal workStyleAnalysis =>
  match get (Some report) (lit "recommendations") with Throw e => Throw e | Normal recommendations =>
  match bullet_list recommendations with Throw e => Throw e | Normal recommendations =>
    Normal
      (lit "# Task Management Report
" ++ summary ++ lit "

## Key Metrics
" ++ metrics ++ lit "

## Task Analysis
" ++ taskAnalysis ++ lit "

## Productivity Metrics
" ++ productivityMetrics ++ lit "

## Work Style Analysis
" ++ workStyleAnalysis ++ lit "

## Strategic Recommendations
" ++ recommendations ++ lit "
")
  end end end end end end end end end end end end end.

(** [generateAndDownload] of the report panel. [data] is what the query
    holds after [refetch()], and [today] is
    [new Date().toISOString().split('T')[0]]. *)
Definition generateAndDownload (today : jsstring) (data : option JSON) : M Page unit :=
  fun p =>
    let '(_, p) :=
      try_catch
        (setIsDownloading true ;;;
         match data with
         | Some report =>
             if truthy report then
               content <- lift (report_content report) ;;
               download (lit "task-report-" ++ today ++ lit ".md") content ;;;
               toast {| toast_title := lit "Report Generated";
                        toast_description :=
                          lit "Your report has been generated and downloaded successfully.";
                        destructive := false |}
             else throw (new_Error (lit "No report data received from server"))
         | None => throw (new_Error (lit "No report data received from server"))
         end)
        (fun error =>
           toast {| toast_title := lit "Report Generation Failed";
                    toast_description := message error;
                    destructive := true |})
        p in
    setIsDownloading false p.

End Text.

(** The body the task list sends to toggle a task: [{ completed }]. *)
Definition toggle_body (completed : bool) : JSON :=
  JObject [(lit "completed", JBool completed)].

End Client.

(* ================================================================== *)
(** ** Users, tasks, models and requests to run the program on *)
(* ================================================================== *)

Module Fixtures.

Definition alice : User.t :=
  {| User.id := 1; User.username := lit "alice"; User.password := lit "x";
     User.createdAt := Some 0%Z |}.

Definition bob : User.t :=
  {| User.id := 2; User.username := lit "bob"; User.password := lit "y";
     User.createdAt := Some 0%Z |}.

Definition task (id owner : Z) (title : string) (done : bool) : Task.t :=
  {| Task.id := id; Task.userId := owner; Task.title := lit title;
     Task.description := None; Task.priority := lit "medium";
     Task.dueDate := None; Task.completed := Some done;
     Task.aiTags := Some [lit "task"]; Task.aiNotes := None;
     Task.createdAt := Some (Some 0%Z) |}.

(** Bob owns task 7; Alice owns nothing. *)
Definition bobs_task : Task.t := task 7 2 "pay rent" false.

Definition bobs_db : DatabaseStorage.Database :=
  {| DatabaseStorage.rows := [bobs_task];
     DatabaseStorage.next_id := 8;
     DatabaseStorage.now := Some 0%Z |}.

Definition empty_db : DatabaseStorage.Database :=
  {| DatabaseStorage.rows := [];
     DatabaseStorage.next_id := 1;
     DatabaseStorage.now := Some 0%Z |}.

Definition world (d : DatabaseStorage.Database) : World DatabaseStorage.Database :=
  {| db := d; sent := [] |}.

(** Insights as a model may phrase them, and their text. *)
Definition some_insights : JSON :=
  JObject
    [ (lit "taskGroups",
       JArray
         [ JObject [ (lit "name", JString (lit "Home"));
                     (lit "tasks", JArray [JString (lit "pay rent")]) ] ]);
      (lit "recommendations", JArray [JString (lit "Pay early")]);
      (lit "completionRate", JString (lit "0%")) ].

Definition some_insights_text : jsstring :=
  tpl "{'taskGroups':[{'name':'Home','tasks':['pay rent']}],'recommendations':['Pay early'],'completionRate':'0%'}".

(** A runtime whose [JSON.parse] knows two texts: the empty object and the
    Insights above. *)
Definition runtime : Runtime :=
  {| JSON_parse := fun s =>
       if str_eqb s (lit "{}") then Normal (JObject [])
       else if str_eqb s some_insights_text then Normal some_insights
       else Throw {| name := SyntaxError; message := lit "Unexpected token";
                     issues := [] |};
     JSON_stringify := fun _ => lit "[]";
     new_Date := fun _ => None |}.

(** A hosted model that cannot be reached. *)
Definition unreachable : GroqService :=
  {| model := {| answer := fun _ => Throw (new_Error (lit "fetch failed")) |} |}.

(** A hosted model that always replies with the same text. *)
Definition replying (s : jsstring) : GroqService :=
  {| model := {| answer := fun _ => Normal (Text s) |} |}.

Definition request (u : User.t) (id : string) (b : JSON) : Request :=
  {| user := Some u; params_id := lit id; body := b |}.

Definition run (service : GroqService) (route : Route) (req : Request)
    (w : World DatabaseStorage.Database) :=
  Routes.registerRoutes DatabaseStorage.storage runtime service route req w.

(** Forty tasks of one user, the first twenty-three of them completed. *)
Definition forty_tasks : list Task.t :=
  map (fun i => task (Z.of_nat i) 1 "t" (i <? 23)%nat) (seq 0 40).

End Fixtures.

(* ================================================================== *)
(** ** Notions of the specification *)
(* ================================================================== *)

Module Spec.

(** A string that does not begin with white space. *)
Definition starts_clean (s : jsstring) : Prop :=
  match s with
  | [] => True
  | c :: _ => is_whitespace c = false
  end.

(** A tag as the specification wants it: trimmed (no white space at either
    end), not empty, and with no line feed in it. *)
Definition clean_tag (tag : jsstring) : Prop :=
  starts_clean tag /\ starts_clean (rev tag) /\ tag <> [] /\ ~ In 10%N tag.

(** [content] is the [fragments], none of which has a comma, with a comma
    between each two. *)
Definition comma_separated (content : jsstring) (fragments : list jsstring) : Prop :=
  content = Client.join [44%N] fragments
  /\ fragments <> []
  /\ Forall (fun fragment => ~ In 44%N fragment) fragments.

(** A text with something in it that is not white space. *)
Definition inked (s : jsstring) : Prop :=
  exists c, In c s /\ is_whitespace c = false.

(** A fragment that makes no tag: it is blank, or it has a line feed with
    something that is not white space on either side of it. *)
Definition unusable (fragment : jsstring) : Prop :=
  forallb is_whitespace fragment = true
  \/ exists before after,
       fragment = before ++ 10%N :: after /\ inked before /\ inked after.

Definition all_strings (items : list JSON) : bool :=
  forallb (fun v => is_string (Some v)) items.

Definition field_is (fields : list (jsstring * JSON)) (k : string)
    (test : JSON -> bool) : bool :=
  match lookup (lit k) fields with
  | Some v => test v
  | None => false
  end.

Definition string_array (v : JSON) : bool :=
  match v with
  | JArray items => all_strings items
  | _ => false
  end.

Definition a_string (v : JSON) : bool := is_string (Some v).

(** The structural contract of Insights: [taskGroups] an array of
    [{name: string, tasks: string[]}], [recommendations] a string array,
    [completionRate] a string. *)
Definition is_TaskInsights (v : JSON) : bool :=
  match v with
  | JObject fields =>
      field_is fields "taskGroups"
        (fun groups =>
           match groups with
           | JArray items =>
               forallb
                 (fun group =>
                    match group with
                    | JObject g =>
                        field_is g "name" a_string && field_is g "tasks" string_array
                    | _ => false
                    end)
                 items
           | _ => false
           end)
      && field_is fields "recommendations" string_array
      && field_is fields "completionRate" a_string
  | _ => false
  end.

(** The structural contract of a Report: [executiveSummary] with a string
    [summary] and an array [metrics] (of strings), three string sections and
    an array of recommendations (of strings). *)
Definition is_TaskReport (v : JSON) : bool :=
  match v with
  | JObject fields =>
      field_is fields "executiveSummary"
        (fun summary =>
           match summary with
           | JObject s =>
               field_is s "summary" a_string && field_is s "metrics" string_array
           | _ => false
           end)
      && field_is fields "taskAnalysis" a_string
      && field_is fields "productivityMetrics" a_string
      && field_is fields "workStyleAnalysis" a_string
      && field_is fields "recommendations" string_array
  | _ => false
  end.

(** What [validateInsightsStructure] checks: the shape of Insights without
    the types of the elements of the inner arrays. *)
Definition an_array (v : JSON) : bool := isArray (Some v).

Definition checked_TaskInsights (v : JSON) : bool :=
  match v with
  | JObject fields =>
      field_is fields "taskGroups"
        (fun groups =>
           match groups with
           | JArray items =>
               forallb
                 (fun group =>
                    match group with
                    | JObject g => field_is g "name" a_string && field_is g "tasks" an_array
                    | _ => false
                    end)
                 items
           | _ => false
           end)
      && field_is fields "recommendations" an_array
      && field_is fields "completionRate" a_string
  | _ => false
  end.

(** A task payload that is well formed: an object with a string [title], a
    [priority] among high, medium and low, and, when they are there and not
    [null], a string [description] and a string [dueDate]. *)
Definition well_formed (payload : JSON) : bool :=
  match payload with
  | JObject fields =>
      field_is fields "title" a_string
      && field_is fields "priority"
           (fun p =>
              match p with
              | JString s => existsb (str_eqb s) Schema.priorities
              | _ => false
              end)
      && match lookup (lit "description") fields with
         | None | Some JNull | Some (JString _) => true
         | Some _ => false
         end
      && match lookup (lit "dueDate") fields with
         | None | Some JNull | Some (JString _) => true
         | Some _ => false
         end
  | _ => false
  end.

(** The prompt [generateTaskTags] sends. *)
Definition tags_prompt (title description : jsstring) : list BaseMessage :=
  [ SystemMessage Groq.tags_systemPrompt;
    HumanMessage
      (lit "Generate relevant tags for this task:
        Title: " ++ title ++ lit "
        Description: " ++ description) ].

(** The fragments of a reply that are kept as tags: the reply split on
    commas, each fragment trimmed, the empty ones and those with a line break
    dropped, the first three taken. *)
Definition kept (content : jsstring) : list jsstring :=
  firstn 3
    (filter (fun tag => (0 <? List.length tag)%nat && negb (includes Groq.nl tag))
       (map trim (split 44%N content))).

(** The prompt [generateTaskInsights] sends. *)
Definition insights_prompt (rt : Runtime) (tasks : list Task.t) : list BaseMessage :=
  [ SystemMessage Groq.insights_systemPrompt;
    HumanMessage
      (lit "Analyze these tasks and provide insights: "
         ++ JSON_stringify rt (OfTasks tasks)) ].

(** The prompt [generateReport] sends. *)
Definition report_prompt (rt : Runtime) (tasks : list Task.t) (insights : JSON)
    (user : User.t) : list BaseMessage :=
  [ SystemMessage Groq.report_systemPrompt;
    HumanMessage (Groq.report_userPrompt rt tasks insights user) ].

(** The Insights object that can be extracted from what the external call
    did and validated, if there is one: the call resolved, one of the three
    patterns matched, the matched text parsed as JSON, and the parsed value
    passed [validateInsightsStructure]. *)
Definition usable_insights (rt : Runtime) (reply : Completion MessageContent)
  : option JSON :=
  match reply with
  | Throw _ => None
  | Normal response =>
      match Groq.jsonMatch (Groq.content_of rt response) with
      | None => None
      | Some found =>
          match JSON_parse rt (group_or_match found) with
          | Throw _ => None
          | Normal v =>
              match Groq.validateInsightsStructure v with
              | Normal true => Some v
              | _ => None
              end
          end
      end
  end.

(** The Report object that can be extracted from what the external call did
    and validated, if there is one. *)
Definition usable_report (rt : Runtime) (reply : Completion MessageContent)
  : option JSON :=
  match reply with
  | Throw _ => None
  | Normal response =>
      match Groq.jsonMatch (Groq.content_of rt response) with
      | None => None
      | Some found =>
          match JSON_parse rt (trim (group_or_match found)) with
          | Throw _ => None
          | Normal v => if Groq.validateReportStructure v then Some v else None
          end
      end
  end.

(** A field of an object. *)
Definition field (v : JSON) (k : string) : option JSON :=
  match v with
  | JObject fields => lookup (lit k) fields
  | _ => None
  end.



(** The validation error names the field [k]. *)
Definition complains_about (e : Exception) (k : string) : Prop :=
  exists i, In i (issues e) /\ path i = [lit k].

(** [p / q] rounded to the nearest integer in exact arithmetic, a tie going
    up; for a positive [q]. *)
Definition round_half_up (p q : Z) : Z := ((2 * p + q) / (2 * q))%Z.

(** The status a handler answered with, when it answered. *)
Definition status_of (r : Completion Response) : option Z :=
  match r with
  | Normal (sendStatus s) | Normal (json s _) => Some s
  | Throw _ => None
  end.

End Spec.

(* ================================================================== *)
(** ** Notions for the further properties *)
(* ================================================================== *)

Module Props.

Import Spec.

(** What [validateReportStructure] checks: an object whose
    [executiveSummary] is an object with a string [summary] and an array
    [metrics], with three string sections and an array of
    recommendations. *)
Definition checked_TaskReport (v : JSON) : bool :=
  match v with
  | JObject fields =>
      field_is fields "executiveSummary"
        (fun summary =>
           match summary with
           | JObject s => field_is s "summary" a_string && field_is s "metrics" an_array
           | _ => false
           end)
      && field_is fields "taskAnalysis" a_string
      && field_is fields "productivityMetrics" a_string
      && field_is fields "workStyleAnalysis" a_string
      && field_is fields "recommendations" an_array
  | _ => false
  end.

(** Insights with one group, whose tasks are the given values. *)
Definition one_group (tasks : list JSON) : JSON :=
  JObject
    [ (lit "taskGroups",
       JArray [ JObject [ (lit "name", JString (lit "All")); (lit "tasks", JArray tasks) ] ]);
      (lit "recommendations", JArray []);
      (lit "completionRate", JString (lit "0%")) ].

(** The keys [insertTaskSchema] picks. *)
Definition picked_keys : list jsstring :=
  [lit "title"; lit "description"; lit "priority"; lit "dueDate"].

(** The fields of a payload under the picked keys. *)
Definition pick (fields : list (jsstring * JSON)) : list (jsstring * JSON) :=
  filter (fun kv => existsb (str_eqb (fst kv)) picked_keys) fields.

(** [candidate] occurs in [content]. *)
Definition occurs_in (candidate content : jsstring) : Prop :=
  exists before after, content = before ++ candidate ++ after.

(** [content] has an opening brace with a closing brace somewhere after
    it. *)
Definition brace_pair (content : jsstring) : Prop :=
  exists a b c, content = a ++ lbrace :: b ++ rbrace :: c.

(** The number of backticks of [content]. *)
Definition backticks (content : jsstring) : nat :=
  count_occ N.eq_dec content backtick.

(** The external calls a request of an authenticated user costs. *)
Definition model_calls (Store : Type) (storage : IStorage Store) (rt : Runtime)
    (route : Route) (u : User.t) (b : JSON) (w : World Store) : nat :=
  let no_tasks :=
    (List.length (getTasksByUserId storage (User.id u) (db w)) =? 0)%nat in
  match route with
  | GET_api_tasks | PATCH_api_tasks_id | DELETE_api_tasks_id => 0
  | POST_api_tasks => if well_formed b then 1 else 0
  | GET_api_insights | POST_api_insights_refresh => if no_tasks then 0 else 1
  | GET_api_report => if no_tasks then 0 else 2
  end.

(** The routes that only read the store. *)
Definition reads_only (route : Route) : bool :=
  match route with
  | GET_api_tasks | GET_api_insights | POST_api_insights_refresh | GET_api_report => true
  | POST_api_tasks | PATCH_api_tasks_id | DELETE_api_tasks_id => false
  end.

(** The first line of the downloaded report. *)
Definition report_heading : jsstring :=
  lit "# Task Management Report
".

(** A report with the given recommendations. *)
Definition report_recommending (recommendations : list JSON) : JSON :=
  JObject
    [ (lit "executiveSummary",
       JObject [ (lit "summary", JString (lit "Overview"));
                 (lit "metrics", JArray [JString (lit "Total Tasks: 1")]) ]);
      (lit "taskAnalysis", JString (lit "Analysis"));
      (lit "productivityMetrics", JString (lit "Metrics"));
      (lit "workStyleAnalysis", JString (lit "Style"));
      (lit "recommendations", JArray recommendations) ].

(** The value of a decimal numeral read from the left, after [acc]. *)
Fixpoint numeral (acc : Z) (d : Decimal.uint) : Z :=
  match d with
  | Decimal.Nil => acc
  | Decimal.D0 d => numeral (acc * 10 + 0) d
  | Decimal.D1 d => numeral (acc * 10 + 1) d
  | Decimal.D2 d => numeral (acc * 10 + 2) d
  | Decimal.D3 d => numeral (acc * 10 + 3) d
  | Decimal.D4 d => numeral (acc * 10 + 4) d
  | Decimal.D5 d => numeral (acc * 10 + 5) d
  | Decimal.D6 d => numeral (acc * 10 + 6) d
  | Decimal.D7 d => numeral (acc * 10 + 7) d
  | Decimal.D8 d => numeral (acc * 10 + 8) d
  | Decimal.D9 d => numeral (acc * 10 + 9) d
  end.

(** The runtime [rt] with another function in the place of [JSON.parse]. *)
Definition with_parse (rt : Runtime) (parse : jsstring -> Completion JSON)
  : Runtime :=
  {| JSON_parse := parse;
     JSON_stringify := JSON_stringify rt;
     new_Date := new_Date rt |}.

(** A [JSON.parse] that knows the empty object only. *)
Definition parse_empty_object (s : jsstring) : Completion JSON :=
  if str_eqb s (lit "{}") then Normal (JObject [])
  else Throw {| name := SyntaxError; message := lit "Unexpected token";
                issues := [] |}.

(** A [JSON.parse] that reads a report out of the empty text and nothing
    out of any other. *)
Definition parse_empty_text (report : JSON) (s : jsstring) : Completion JSON :=
  match s with
  | [] => Normal report
  | _ => Throw {| name := SyntaxError; message := lit "Unexpected token";
                  issues := [] |}
  end.

End Props.

(** Unfolding of the plumbing of a computation, which leaves the case
    analysis on what the hosted model, the parser and the store did. *)
Ltac run_M :=
  unfold try_catch, bind, invoke, lift, throw, ret,
    Routes.query, Routes.command, Routes.groq.

(* ================================================================== *)
(** ** Strings *)
(* ================================================================== *)

Section StringFacts.

Import Spec.

Lemma trimStart_starts_clean (s : jsstring) : starts_clean (trimStart s).
Proof.
  induction s as [|c r IH]; simpl; [exact I|].
  destruct (is_whitespace c) eqn:E; [exact IH | simpl; exact E].
Qed.

Lemma trimStart_fixed (s : jsstring) : starts_clean s -> trimStart s = s.
Proof.
  destruct s as [|c r]; simpl; [reflexivity|].
  intros ->. reflexivity.
Qed.

Lemma trimStart_prefix (s : jsstring) :
  exists w, s = w ++ trimStart s /\ forallb is_whitespace w = true.
Proof.
  induction s as [|c r [w [Hs Hw]]]; simpl.
  - exists []. split; reflexivity.
  - destruct (is_whitespace c) eqn:E.
    + exists (c :: w). simpl. rewrite E, Hw. split; [congruence | reflexivity].
    + exists []. split; reflexivity.
Qed.

Lemma trimEnd_suffix (s : jsstring) :
  exists w, s = trimEnd s ++ w /\ forallb is_whitespace w = true.
Proof.
  unfold trimEnd.
  destruct (trimStart_prefix (rev s)) as [w [Hs Hw]].
  exists (rev w). split.
  - rewrite <- rev_app_distr, <- Hs, rev_involutive. reflexivity.
  - rewrite forallb_forall in *. intros x Hx. apply Hw, in_rev, Hx.
Qed.

Lemma trimEnd_keeps_head (c : code_unit) (r : jsstring) :
  is_whitespace c = false -> exists r', trimEnd (c :: r) = c :: r'.
Proof.
  intros Hc. destruct (trimEnd_suffix (c :: r)) as [w [Hs Hw]].
  destruct (trimEnd (c :: r)) as [|c' r'].
  - simpl in Hs. subst w. simpl in Hw. rewrite Hc in Hw. discriminate.
  - simpl in Hs. injection Hs as -> _. exists r'. reflexivity.
Qed.

Lemma trimEnd_fixed (s : jsstring) : starts_clean (rev s) -> trimEnd s = s.
Proof.
  intros H. unfold trimEnd. rewrite (trimStart_fixed _ H).
  apply rev_involutive.
Qed.

Lemma trim_starts_clean (s : jsstring) : starts_clean (trim s).
Proof.
  unfold trim. pose proof (trimStart_starts_clean s) as H.
  destruct (trimStart s) as [|c r]; [exact I|].
  destruct (@trimEnd_keeps_head c r H) as [r' ->]. exact H.
Qed.

Lemma trim_ends_clean (s : jsstring) : starts_clean (rev (trim s)).
Proof.
  unfold trim, trimEnd. rewrite rev_involutive. apply trimStart_starts_clean.
Qed.

(** Trimming twice is trimming once. *)
Lemma trim_idempotent (s : jsstring) : trim (trim s) = trim s.
Proof.
  unfold trim at 1.
  rewrite (trimStart_fixed _ (trim_starts_clean s)).
  apply trimEnd_fixed, trim_ends_clean.
Qed.

Lemma firstn_In {A} (n : nat) (l : list A) (x : A) : In x (firstn n l) -> In x l.
Proof.
  revert l. induction n as [|n IH]; intros [|y l]; simpl; try tauto.
  intros [H|H]; [left; exact H | right; apply IH, H].
Qed.

Lemma length_positive (s : jsstring) : (0 <? List.length s)%nat = true -> s <> [].
Proof. destruct s; simpl; [discriminate | discriminate]. Qed.

End StringFacts.

(* ================================================================== *)
(** ** Tag generation *)
(* ================================================================== *)

Section Tags.

Import Spec.

Variable rt : Runtime.
Variable this : GroqService.

(** [generateTaskTags] makes one call and never throws: it returns the kept
    fragments of the reply, or the literal tag when there is none or when
    the call failed. *)
Lemma generateTaskTags_runs (title description : jsstring) (log : Log) :
  Groq.generateTaskTags rt this title description log =
  (Normal
     match answer (model this) (tags_prompt title description) with
     | Normal response =>
         match kept (Groq.content_of rt response) with
         | [] => [lit "task"]
         | tags => tags
         end
     | Throw _ => [lit "task"]
     end,
   log ++ [tags_prompt title description]).
Proof.
  unfold Groq.generateTaskTags. run_M.
  fold (tags_prompt title description).
  destruct (answer (model this) (tags_prompt title description)) as [response|e];
    [|reflexivity].
  fold (kept (Groq.content_of rt response)).
  destruct (kept (Groq.content_of rt response)); reflexivity.
Qed.


Lemma includes_unit (c : code_unit) (s : jsstring) :
  includes [c] s = true <-> In c s.
Proof.
  induction s as [|x r IH]; simpl.
  - split; [discriminate | tauto].
  - rewrite andb_true_r. destruct (N.eqb_spec c x) as [->|Hne]; simpl.
    + split; auto.
    + rewrite IH. split; [tauto|]. intros [H|H]; [congruence | exact H].
Qed.

Lemma includes_unit_true (c : code_unit) (s : jsstring) :
  In c s -> includes [c] s = true.
Proof. apply includes_unit. Qed.

Lemma includes_unit_false (c : code_unit) (s : jsstring) :
  includes [c] s = false -> ~ In c s.
Proof. intros H Hin. apply includes_unit in Hin. congruence. Qed.

Lemma kept_clean (content : jsstring) : Forall clean_tag (kept content).
Proof.
  unfold kept. apply Forall_forall. intros tag Hin.
  apply firstn_In, filter_In in Hin. destruct Hin as [Hin Hok].
  apply andb_true_iff in Hok. destruct Hok as [Hlen Hnl].
  apply in_map_iff in Hin. destruct Hin as [raw [<- _]].
  split; [apply trim_starts_clean|]. split; [apply trim_ends_clean|].
  split; [apply length_positive, Hlen|].
  apply includes_unit_false, negb_true_iff, Hnl.
Qed.

Lemma literal_tag_clean : clean_tag (lit "task").
Proof.
  split; [reflexivity|]. split; [reflexivity|]. split; [discriminate|].
  simpl. intros H. repeat (destruct H as [H|H]; [discriminate|]). exact H.
Qed.

Lemma split_unit (sep : code_unit) (s : jsstring) :
  ~ In sep s -> split sep s = [s].
Proof.
  induction s as [|c r IH]; simpl; [reflexivity|].
  intros H. destruct (N.eqb_spec c sep) as [->|_]; [exfalso; apply H; left; reflexivity|].
  rewrite IH; [reflexivity|]. intros Hin. apply H. right. exact Hin.
Qed.

Lemma split_app (sep : code_unit) (s rest : jsstring) :
  ~ In sep s -> split sep (s ++ sep :: rest) = s :: split sep rest.
Proof.
  induction s as [|c r IH]; simpl.
  - intros _. rewrite N.eqb_refl. reflexivity.
  - intros H. destruct (N.eqb_spec c sep) as [->|_]; [exfalso; apply H; left; reflexivity|].
    rewrite IH; [reflexivity|]. intros Hin. apply H. right. exact Hin.
Qed.

(** [split] gives back the fragments a text was put together from. *)
Lemma split_comma_separated (content : jsstring) (fragments : list jsstring) :
  comma_separated content fragments -> split 44%N content = fragments.
Proof.
  intros [-> [Hne Hall]]. induction fragments as [|x r IH]; [congruence|].
  inversion Hall as [|? ? Hx Hr]; subst.
  destruct r as [|y r].
  - simpl. apply split_unit, Hx.
  - change (Client.join [44%N] (x :: y :: r))
      with (x ++ 44%N :: Client.join [44%N] (y :: r)).
    rewrite split_app by exact Hx. f_equal. apply IH; [discriminate | exact Hr].
Qed.

Lemma trimStart_blank (s : jsstring) :
  forallb is_whitespace s = true -> trimStart s = [].
Proof.
  induction s as [|c r IH]; simpl; [reflexivity|].
  intros H. apply andb_true_iff in H. destruct H as [-> Hr]. apply IH, Hr.
Qed.

Lemma trimStart_app_inked (a rest : jsstring) :
  inked a -> trimStart (a ++ rest) = trimStart a ++ rest.
Proof.
  intros [x [Hx Hink]]. induction a as [|y a IH]; [destruct Hx|].
  simpl. destruct (is_whitespace y) eqn:Hy; [|reflexivity].
  destruct Hx as [->|Hx]; [congruence|]. apply IH, Hx.
Qed.

Lemma inked_rev (s : jsstring) : inked s -> inked (rev s).
Proof.
  intros [x [Hx Hink]]. exists x. split; [apply in_rev in Hx; exact Hx | exact Hink].
Qed.

(** An unusable fragment is dropped. *)
Lemma unusable_dropped (fragment : jsstring) :
  unusable fragment ->
  (0 <? List.length (trim fragment))%nat && negb (includes Groq.nl (trim fragment)) = false.
Proof.
  intros [Hblank | [before [after [-> [Hb Ha]]]]].
  - unfold trim. rewrite (trimStart_blank _ Hblank). reflexivity.
  - apply andb_false_iff. right. apply negb_false_iff.
    apply includes_unit_true. unfold trim, trimEnd. apply in_rev.
    rewrite rev_involutive.
    rewrite (trimStart_app_inked _ Hb), rev_app_distr. simpl. rewrite <- app_assoc.
    rewrite (trimStart_app_inked _ (inked_rev Ha)).
    apply in_or_app. right. apply in_or_app. left. left. reflexivity.
Qed.

(** A reply all of whose fragments are unusable leaves nothing. *)
Lemma nothing_kept (content : jsstring) (fragments : list jsstring) :
  comma_separated content fragments -> Forall unusable fragments -> kept content = [].
Proof.
  intros Hsep Hall. unfold kept. rewrite (split_comma_separated Hsep).
  clear Hsep. induction Hall as [|f r Hf Hr IH]; [reflexivity|].
  simpl map. cbn [filter]. rewrite (unusable_dropped Hf). exact IH.
Qed.

End Tags.

Section TagClaims.

Import Spec.


(** What [POST /api/tasks] does for an authenticated user: a payload the
    schema refuses makes the handler throw before anything else happens;
    otherwise one prompt is sent and [createTask] receives the validated
    fields, the user of the session and the generated tags. *)
Lemma post_tasks_runs (Store : Type) (storage : IStorage Store) (rt : Runtime)
    (service : GroqService) (u : User.t) (pid : jsstring) (b : JSON)
    (w : World Store) :
  Routes.post_tasks storage rt service {| user := Some u; params_id := pid; body := b |} w =
  match Schema.insertTaskSchema_parse rt b with
  | Throw e => (Throw e, w)
  | Normal validated =>
      let description :=
        match InsertTask.description validated with
        | Value (c :: d) => c :: d
        | _ => []
        end in
      let '(tags, log) :=
        Groq.generateTaskTags rt service (InsertTask.title validated) description (sent w) in
      match tags with
      | Normal tags =>
          let created :=
            createTask storage
              {| NewTask.data := validated; NewTask.userId := User.id u;
                 NewTask.aiTags := tags |} (db w) in
          (Normal (json 201 (OneTask (fst created))),
           {| db := snd created; sent := log |})
      | Throw e => (Throw e, {| db := db w; sent := log |})
      end
  end.
Proof.
  unfold Routes.post_tasks. run_M. simpl.
  destruct (Schema.insertTaskSchema_parse rt b) as [validated|e]; [|reflexivity].
  cbv zeta.
  destruct (Groq.generateTaskTags rt service _ _ (sent w)) as [[tags|e] log];
    [|reflexivity].
  simpl. destruct (createTask storage _ (db w)). reflexivity.
Qed.


(** C10. [generateTaskTags] never returns an empty list. Every tag it
    returns is trimmed (it neither begins nor ends with white space), not
    empty and free of line feeds. A failed call yields the single tag
    ["task"], and so does a successful call whose reply splits, at its
    commas, into fragments none of which is usable: each is blank or has a
    line feed inside. *)
Theorem task_tags_never_empty_and_clean :
  forall (rt : Runtime) (this : GroqService) (title description : jsstring) (log : Log),
  exists tags log',
    Groq.generateTaskTags rt this title description log = (Normal tags, log')
    /\ tags <> []
    /\ Forall
         (fun tag =>
            starts_clean tag /\ starts_clean (rev tag) /\ tag <> [] /\ ~ In 10%N tag)
         tags
    /\ match answer (model this) (tags_prompt title description) with
       | Normal response =>
           forall fragments,
             comma_separated (Groq.content_of rt response) fragments ->
             Forall unusable fragments ->
             tags = [lit "task"]
       | Throw _ => tags = [lit "task"]
       end.
Proof.
  intros rt this title description log.
  rewrite generateTaskTags_runs.
  eexists. eexists. split; [reflexivity|].
  destruct (answer (model this) (tags_prompt title description)) as [response|e].
  - pose proof (kept_clean (Groq.content_of rt response)) as H.
    split; [destruct (kept (Groq.content_of rt response)); discriminate|].
    split.
    + destruct (kept (Groq.content_of rt response)) as [|t l];
        [constructor; [apply literal_tag_clean | constructor] | exact H].
    + intros fragments Hsep Hall. rewrite (nothing_kept Hsep Hall). reflexivity.
  - split; [discriminate|].
    split; [constructor; [apply literal_tag_clean | constructor] | reflexivity].
Qed.

(** A reply of blanks, commas and a fragment broken by a line feed. *)
Lemma task_tags_never_empty_and_clean_witness :
  fst (Groq.generateTaskTags Fixtures.runtime
         (Fixtures.replying (lit " ,urgent
work,"))
         (lit "pay rent") [] [])
  = Normal [lit "task"].
Proof.
  destruct (task_tags_never_empty_and_clean Fixtures.runtime
              (Fixtures.replying (lit " ,urgent
work,"))
              (lit "pay rent") [] [])
    as [tags [log' [Hrun [_ [_ Hfallback]]]]].
  rewrite Hrun. cbn [fst]. f_equal.
  apply (Hfallback [lit " "; lit "urgent
work"; []]).
  - split; [reflexivity|]. split; [discriminate|].
    repeat constructor; simpl; intros H;
      repeat (destruct H as [H|H]; [discriminate|]); exact H.
  - constructor; [left; reflexivity|].
    constructor; [|constructor; [left; reflexivity | constructor]].
    right. exists (lit "urgent"), (lit "work").
    split; [reflexivity|].
    split; [exists 117%N | exists 119%N]; (split; [left; reflexivity | reflexivity]).
Defined.

End TagClaims.

(* ================================================================== *)
(** ** The percentage in double precision *)
(* ================================================================== *)

Section Percentages.

Import Spec.

Local Unset Implicit Arguments.
Local Open Scope Z_scope.

(** One shift to the right halves a mantissa. *)
Lemma shr_1_m (mrs : shr_record) :
  0 <= shr_m mrs -> shr_m (shr_1 mrs) = shr_m mrs / 2.
Proof.
  destruct mrs as [m r s]. cbn [shr_m]. intros Hm.
  destruct m as [|[p|p|]|p]; cbn [shr_1 shr_m].
  - reflexivity.
  - rewrite (Pos2Z.inj_xI p). apply Z.div_unique with 1; lia.
  - rewrite (Pos2Z.inj_xO p). apply Z.div_unique with 0; lia.
  - reflexivity.
  - exfalso. apply Hm. reflexivity.
Qed.

(** [p] shifts divide it by [2 ^ p]. *)
Lemma iter_pos_shr_1 (p : positive) :
  forall mrs, 0 <= shr_m mrs ->
    shr_m (iter_pos shr_1 p mrs) = shr_m mrs / 2 ^ Z.pos p.
Proof.
  induction p as [p IH|p IH|]; intros mrs Hm; cbn [iter_pos].
  - assert (H1 : 0 <= shr_m (shr_1 mrs)) by (rewrite shr_1_m by exact Hm; apply Z.div_pos; lia).
    assert (H2 : 0 <= shr_m (iter_pos shr_1 p (shr_1 mrs)))
      by (rewrite IH by exact H1; apply Z.div_pos; [exact H1 | apply Z.pow_pos_nonneg; lia]).
    rewrite (IH _ H2), (IH _ H1), (shr_1_m _ Hm).
    rewrite !Z.div_div by (try apply Z.pow_pos_nonneg; lia).
    f_equal. rewrite (Pos2Z.inj_xI p).
    replace (2 * Z.pos p + 1) with (1 + Z.pos p + Z.pos p) by lia.
    rewrite !Z.pow_add_r by lia. change (2 ^ 1) with 2. ring.
  - assert (H2 : 0 <= shr_m (iter_pos shr_1 p mrs))
      by (rewrite IH by exact Hm; apply Z.div_pos; [exact Hm | apply Z.pow_pos_nonneg; lia]).
    rewrite (IH _ H2), (IH _ Hm).
    rewrite !Z.div_div by (try apply Z.pow_pos_nonneg; lia).
    f_equal. rewrite (Pos2Z.inj_xO p).
    replace (2 * Z.pos p) with (Z.pos p + Z.pos p) by lia.
    symmetry. apply Z.pow_add_r; lia.
  - rewrite (shr_1_m _ Hm). reflexivity.
Qed.

Lemma shr_spec (mrs : shr_record) (e n : Z) :
  0 <= shr_m mrs ->
  shr_m (fst (shr mrs e n)) = shr_m mrs / 2 ^ Z.max 0 n
  /\ snd (shr mrs e n) = e + Z.max 0 n.
Proof.
  intros Hm. destruct n as [|p|p]; cbn [shr fst snd].
  - rewrite Z.div_1_r. split; [reflexivity | lia].
  - rewrite (iter_pos_shr_1 p _ Hm). split; [reflexivity | lia].
  - rewrite Z.div_1_r. split; [reflexivity | lia].
Qed.

Lemma pow2_succ (d : Z) : 0 <= d -> 2 ^ (d + 1) = 2 * 2 ^ d.
Proof. intros Hd. rewrite Z.pow_add_r by lia. change (2 ^ 1) with 2. ring. Qed.

(** A number of [d] binary digits lies between [2 ^ (d - 1)] and [2 ^ d]. *)
Lemma digits2_pos_bounds (p : positive) :
  2 ^ (Z.pos (digits2_pos p) - 1) <= Z.pos p < 2 ^ Z.pos (digits2_pos p).
Proof.
  induction p as [p IH|p IH|]; cbn [digits2_pos].
  - rewrite Pos2Z.inj_succ, (Pos2Z.inj_xI p).
    set (d := Z.pos (digits2_pos p)) in *.
    replace (Z.succ d - 1) with (d - 1 + 1) by lia.
    replace (Z.succ d) with (d + 1) by lia.
    rewrite !pow2_succ by lia. lia.
  - rewrite Pos2Z.inj_succ, (Pos2Z.inj_xO p).
    set (d := Z.pos (digits2_pos p)) in *.
    replace (Z.succ d - 1) with (d - 1 + 1) by lia.
    replace (Z.succ d) with (d + 1) by lia.
    rewrite !pow2_succ by lia. lia.
  - cbn. lia.
Qed.

Lemma Zdigits2_unique (m d : Z) :
  2 ^ (d - 1) <= m < 2 ^ d -> 0 < d -> Zdigits2 m = d.
Proof.
  intros [Hlo Hhi] Hd.
  assert (Hm : 0 < m) by (pose proof (Z.pow_pos_nonneg 2 (d - 1)); lia).
  destruct m as [|p|p]; try lia. cbn [Zdigits2].
  pose proof (digits2_pos_bounds p) as [Hlo' Hhi'].
  set (d' := Z.pos (digits2_pos p)) in *.
  assert (d' - 1 < d) by (apply (Z.pow_lt_mono_r_iff 2); lia).
  assert (d - 1 < d') by (apply (Z.pow_lt_mono_r_iff 2); lia).
  lia.
Qed.

Lemma round_nearest_even_cases (m : Z) (l : location) :
  round_nearest_even m l = m \/ round_nearest_even m l = m + 1.
Proof.
  destruct l as [|[| |]]; cbn [round_nearest_even]; auto.
  destruct (Z.even m); auto.
Qed.

Lemma shr_m_of_loc (m : Z) (l : location) : shr_m (shr_record_of_loc m l) = m.
Proof. destruct l as [|[| |]]; reflexivity. Qed.

(** Bringing a mantissa to 53 bits drops its low bits; the exponents of
    this program are far from the subnormal range. *)
Lemma shr_fexp_spec (m e : Z) (l : location) :
  0 <= m -> -1074 <= e ->
  exists mrs,
    shr_fexp prec emax m e l = (mrs, e + Z.max 0 (Zdigits2 m - 53))
    /\ shr_m mrs = m / 2 ^ Z.max 0 (Zdigits2 m - 53).
Proof.
  intros Hm He. unfold shr_fexp.
  set (n := fexp prec emax (Zdigits2 m + e) - e).
  assert (Hn : Z.max 0 n = Z.max 0 (Zdigits2 m - 53)).
  { unfold n, fexp, SpecFloat.emin, prec, emax. lia. }
  destruct (shr_spec (shr_record_of_loc m l) e n) as [H1 H2].
  { rewrite shr_m_of_loc. exact Hm. }
  rewrite shr_m_of_loc, Hn in H1. rewrite Hn in H2.
  exists (fst (shr (shr_record_of_loc m l) e n)). split; [|exact H1].
  rewrite <- H2. apply surjective_pairing.
Qed.

(** Rounding to 53 bits moves a value by less than one unit in the last
    place of the result. *)
Lemma binary_round_aux_bounds (s : bool) (mx ex : Z) (lx : location) :
  2 ^ 52 <= mx -> -1074 <= ex -> ex + Zdigits2 mx <= 1023 ->
  exists (m : positive) (k : Z),
    binary_round_aux prec emax s mx ex lx = S754_finite s m (ex + k)
    /\ Zdigits2 mx - 53 <= k <= Zdigits2 mx - 52
    /\ 2 ^ 52 <= Z.pos m < 2 ^ 53
    /\ (Z.pos m - 1) * 2 ^ k <= mx
    /\ mx + 1 <= (Z.pos m + 1) * 2 ^ k.
Proof.
  intros Hmx Hex Hmax.
  assert (Hpos : 0 < mx) by (pose proof (Z.pow_pos_nonneg 2 52); lia).
  assert (Hd : 2 ^ (Zdigits2 mx - 1) <= mx < 2 ^ Zdigits2 mx).
  { destruct mx as [|p|p]; try lia. apply digits2_pos_bounds. }
  set (d := Zdigits2 mx) in *.
  assert (Hd53 : 53 <= d).
  { assert (52 < d); [|lia]. apply (Z.pow_lt_mono_r_iff 2); try lia.
    destruct mx; try lia; unfold d; cbn; lia. }
  set (k0 := d - 53).
  assert (Hk0 : Z.max 0 (d - 53) = k0) by (unfold k0; lia).
  pose proof (Z.pow_pos_nonneg 2 k0 ltac:(lia) ltac:(unfold k0; lia)) as HP.
  assert (Hlow : 2 ^ (d - 1) = 2 ^ 52 * 2 ^ k0).
  { rewrite <- Z.pow_add_r by (unfold k0; lia). f_equal. unfold k0. lia. }
  assert (Hhigh : 2 ^ d = 2 ^ 53 * 2 ^ k0).
  { rewrite <- Z.pow_add_r by (unfold k0; lia). f_equal. unfold k0. lia. }
  set (P := 2 ^ k0) in *.
  set (q := mx / P).
  assert (Hq1 : q * P <= mx) by (unfold q; rewrite Z.mul_comm; apply Z.mul_div_le; lia).
  assert (Hq2 : mx < (q + 1) * P).
  { unfold q. rewrite Z.mul_comm. apply (Z.mul_succ_div_gt mx P). lia. }
  assert (Hq : 2 ^ 52 <= q < 2 ^ 53).
  { split.
    - apply Z.div_le_lower_bound; lia.
    - apply Z.div_lt_upper_bound; lia. }
  unfold binary_round_aux.
  destruct (shr_fexp_spec mx ex lx ltac:(lia) Hex) as [mrs1 [E1 Hm1]].
  fold d in E1, Hm1. rewrite Hk0 in E1, Hm1. fold P in Hm1. fold q in Hm1.
  rewrite E1.
  set (m' := round_nearest_even (shr_m mrs1) (loc_of_shr_record mrs1)).
  assert (Hm' : m' = q \/ m' = q + 1).
  { unfold m'. rewrite Hm1. apply round_nearest_even_cases. }
  destruct (shr_fexp_spec m' (ex + k0) loc_Exact ltac:(lia) ltac:(unfold k0; lia))
    as [mrs2 [E2 Hm2]].
  rewrite E2.
  destruct (Z.eq_dec m' (2 ^ 53)) as [Htop | Hnot].
  - assert (Hdig : Zdigits2 m' = 54).
    { apply Zdigits2_unique; [|lia]. rewrite Htop. change (54 - 1) with 53.
      split; [lia|]. apply Z.pow_lt_mono_r; lia. }
    rewrite Hdig in Hm2 |- *. change (Z.max 0 (54 - 53)) with 1 in Hm2 |- *.
    rewrite Htop in Hm2. change (2 ^ 53 / 2 ^ 1) with (Z.pos (2 ^ 52)) in Hm2.
    rewrite Hm2.
    destruct (Z.leb_spec (ex + k0 + 1) (emax - prec)) as [_|Hbad];
      [|unfold emax, prec, k0 in Hbad; lia].
    exists (2 ^ 52)%positive, (k0 + 1). split; [f_equal; lia|].
    split; [unfold k0; lia|]. split; [split; [reflexivity | reflexivity]|].
    rewrite pow2_succ by (unfold k0; lia). fold P.
    change (Z.pos (2 ^ 52)) with (2 ^ 52). lia.
  - assert (Hrange : 2 ^ 52 <= m' < 2 ^ 53) by lia.
    assert (Hdig : Zdigits2 m' = 53) by (apply Zdigits2_unique; [exact Hrange | lia]).
    rewrite Hdig in Hm2 |- *. change (Z.max 0 (53 - 53)) with 0 in Hm2 |- *.
    rewrite Z.div_1_r in Hm2. rewrite Hm2.
    destruct m' as [|m|m]; try lia.
    rewrite Z.add_0_r.
    destruct (Z.leb_spec (ex + k0) (emax - prec)) as [_|Hbad];
      [|unfold emax, prec, k0 in Hbad; lia].
    exists m, k0. split; [reflexivity|].
    split; [unfold k0; lia|]. split; [exact Hrange|].
    fold P. nia.
Qed.

Lemma iter_xO (p d : positive) : Z.pos (Pos.iter xO p d) = Z.pos p * 2 ^ Z.pos d.
Proof.
  induction d as [|d IH] using Pos.peano_ind.
  - cbn [Pos.iter]. rewrite (Pos2Z.inj_xO p). change (2 ^ 1) with 2. ring.
  - rewrite Pos.iter_succ, Pos2Z.inj_xO, IH, Pos2Z.inj_succ.
    unfold Z.succ. rewrite pow2_succ by lia. ring.
Qed.

(** A mantissa of exactly 53 bits is not rounded. *)
Lemma binary_round_aux_exact (s : bool) (m : positive) (e : Z) :
  2 ^ 52 <= Z.pos m < 2 ^ 53 -> -1074 <= e <= 971 ->
  binary_round_aux prec emax s (Z.pos m) e loc_Exact = S754_finite s m e.
Proof.
  intros Hm He.
  assert (Hdig : Zdigits2 (Z.pos m) = 53) by (apply Zdigits2_unique; [exact Hm | lia]).
  assert (Hshr : shr_fexp prec emax (Z.pos m) e loc_Exact
                 = ({| shr_m := Z.pos m; shr_r := false; shr_s := false |}, e)).
  { unfold shr_fexp. rewrite Hdig.
    replace (fexp prec emax (53 + e) - e) with 0
      by (unfold fexp, SpecFloat.emin, prec, emax; lia).
    reflexivity. }
  unfold binary_round_aux. rewrite Hshr.
  cbn [shr_m loc_of_shr_record round_nearest_even]. rewrite Hshr. cbn [shr_m].
  destruct (Z.leb_spec e (emax - prec)) as [_|Hbad];
    [reflexivity | unfold emax, prec in Hbad; lia].
Qed.

(** An array length as a Number: exact, with a mantissa of 53 bits. *)
Lemma of_length_spec (n : Z) :
  0 < n < 2 ^ 32 ->
  exists (m : positive) (s : Z),
    Prim2SF (PrimFloat.of_uint63 (Uint63.of_Z n)) = S754_finite false m (- s)
    /\ 21 <= s <= 52
    /\ 2 ^ 52 <= Z.pos m < 2 ^ 53
    /\ Z.pos m = n * 2 ^ s.
Proof.
  intros Hn. rewrite FloatAxioms.of_uint63_spec, Uint63.of_Z_spec.
  rewrite Z.mod_small by (change wB with (2 ^ 63); split; [lia|];
    apply Z.lt_trans with (2 ^ 32); [lia | reflexivity]).
  destruct n as [|p|p]; try lia.
  cbn [binary_normalize]. unfold binary_round.
  pose proof (digits2_pos_bounds p) as Hd.
  set (d := Z.pos (digits2_pos p)) in *.
  assert (Hd32 : 1 <= d <= 32).
  { split; [unfold d; lia|].
    assert (d - 1 < 32); [|lia]. apply (Z.pow_lt_mono_r_iff 2); lia. }
  replace (fexp prec emax (d + 0)) with (d - 53)
    by (unfold fexp, SpecFloat.emin, prec, emax; lia).
  unfold shl_align.
  destruct (d - 53 - 0) as [|dd|dd] eqn:Edd; try lia.
  assert (Hshift : Z.pos dd = 53 - d) by lia.
  assert (Hm : Z.pos (Pos.iter xO p dd) = Z.pos p * 2 ^ (53 - d))
    by (rewrite iter_xO, Hshift; reflexivity).
  assert (Hsplit1 : 2 ^ 52 = 2 ^ (d - 1) * 2 ^ (53 - d))
    by (rewrite <- Z.pow_add_r by lia; f_equal; lia).
  assert (Hsplit2 : 2 ^ 53 = 2 ^ d * 2 ^ (53 - d))
    by (rewrite <- Z.pow_add_r by lia; f_equal; lia).
  pose proof (Z.pow_pos_nonneg 2 (53 - d) ltac:(lia) ltac:(lia)) as HP.
  assert (Hrange : 2 ^ 52 <= Z.pos (Pos.iter xO p dd) < 2 ^ 53).
  { rewrite Hm, Hsplit1, Hsplit2. split.
    - apply Z.mul_le_mono_nonneg_r; lia.
    - apply Z.mul_lt_mono_pos_r; lia. }
  rewrite binary_round_aux_exact by (try exact Hrange; lia).
  exists (Pos.iter xO p dd), (53 - d).
  split; [f_equal; lia|]. split; [lia|]. split; [exact Hrange | exact Hm].
Qed.

Lemma div_eucl_div (a b q r : Z) : Z.div_eucl a b = (q, r) -> q = a / b.
Proof. intros H. unfold Z.div. rewrite H. reflexivity. Qed.

(** The quotient of two lengths: within one unit in the last place. *)
Lemma SFdiv_bounds (mc mn : positive) (sc sn : Z) :
  2 ^ 52 <= Z.pos mc < 2 ^ 53 -> 2 ^ 52 <= Z.pos mn < 2 ^ 53 ->
  21 <= sc <= 52 -> 21 <= sn <= 52 ->
  exists (m : positive) (k : Z),
    SFdiv prec emax (S754_finite false mc (- sc)) (S754_finite false mn (- sn))
    = S754_finite false m (sn - sc - 53 + k)
    /\ 0 <= k <= 2
    /\ 2 ^ 52 <= Z.pos m < 2 ^ 53
    /\ (Z.pos m - 1) * 2 ^ k * Z.pos mn <= Z.pos mc * 2 ^ 53
    /\ Z.pos mc * 2 ^ 53 <= (Z.pos m + 1) * 2 ^ k * Z.pos mn.
Proof.
  intros Hmc Hmn Hsc Hsn.
  assert (Hdc : Zdigits2 (Z.pos mc) = 53) by (apply Zdigits2_unique; [exact Hmc | lia]).
  assert (Hdn : Zdigits2 (Z.pos mn) = 53) by (apply Zdigits2_unique; [exact Hmn | lia]).
  unfold SFdiv, SFdiv_core_binary. rewrite Hdc, Hdn.
  replace (Z.min (fexp prec emax (53 + - sc - (53 + - sn))) (- sc - - sn))
    with (sn - sc - 53)
    by (unfold fexp, SpecFloat.emin, prec, emax; lia).
  replace (- sc - - sn - (sn - sc - 53)) with 53 by lia.
  change (Z.shiftl (Z.pos mc) 53) with (Z.pos mc * 2 ^ 53) || rewrite Z.shiftl_mul_pow2 by lia.
  destruct (Z.div_eucl (Z.pos mc * 2 ^ 53) (Z.pos mn)) as [q r] eqn:E.
  apply div_eucl_div in E.
  pose proof (Z.mul_div_le (Z.pos mc * 2 ^ 53) (Z.pos mn) ltac:(lia)) as Hq1.
  pose proof (Z.mul_succ_div_gt (Z.pos mc * 2 ^ 53) (Z.pos mn) ltac:(lia)) as Hq2.
  rewrite <- E in Hq1, Hq2.
  assert (Hq : 2 ^ 52 <= q < 2 ^ 54).
  { rewrite E. split.
    - apply Z.div_le_lower_bound; lia.
    - apply Z.div_lt_upper_bound; lia. }
  assert (Hdq : 53 <= Zdigits2 q <= 54).
  { assert (Hqpos : 0 < q) by lia.
    destruct q as [|pq|pq]; try lia. cbn [Zdigits2].
    pose proof (digits2_pos_bounds pq) as Hb.
    set (dq := Z.pos (digits2_pos pq)) in *.
    assert (52 < dq) by (apply (Z.pow_lt_mono_r_iff 2); lia).
    assert (dq - 1 < 54) by (apply (Z.pow_lt_mono_r_iff 2); lia).
    lia. }
  cbn [xorb].
  destruct (binary_round_aux_bounds false q (sn - sc - 53) (new_location (Z.pos mn) r)
              ltac:(lia) ltac:(lia) ltac:(lia))
    as [m [k [Hround [Hk [Hm [Hlo Hhi]]]]]].
  exists m, k. split; [exact Hround|]. split; [lia|]. split; [exact Hm|].
  pose proof (Z.pow_pos_nonneg 2 k ltac:(lia) ltac:(lia)) as HP.
  split.
  - apply Z.le_trans with (q * Z.pos mn); [|lia].
    apply Z.mul_le_mono_nonneg_r; lia.
  - apply Z.le_trans with ((q + 1) * Z.pos mn); [lia|].
    apply Z.mul_le_mono_nonneg_r; lia.
Qed.

Lemma hundred_spec :
  Prim2SF 100%float = S754_finite false (25 * 2 ^ 48)%positive (- 46).
Proof. vm_compute. reflexivity. Qed.

(** The product of a Number of 53 bits and 100: within one unit in the last
    place. *)
Lemma SFmul_hundred_bounds (m3 : positive) (e3 : Z) :
  2 ^ 52 <= Z.pos m3 < 2 ^ 53 -> -84 <= e3 <= -20 ->
  exists (m : positive) (k : Z),
    SFmul prec emax (S754_finite false m3 e3)
      (S754_finite false (25 * 2 ^ 48)%positive (- 46))
    = S754_finite false m (e3 - 46 + k)
    /\ 52 <= k <= 54
    /\ 2 ^ 52 <= Z.pos m < 2 ^ 53
    /\ (Z.pos m - 1) * 2 ^ k <= 100 * Z.pos m3 * 2 ^ 46
    /\ 100 * Z.pos m3 * 2 ^ 46 <= (Z.pos m + 1) * 2 ^ k.
Proof.
  intros Hm3 He3. cbn [SFmul xorb].
  assert (Hprod : Z.pos (m3 * (25 * 2 ^ 48)) = 100 * Z.pos m3 * 2 ^ 46).
  { rewrite Pos2Z.inj_mul. change (Z.pos (25 * 2 ^ 48)) with (100 * 2 ^ 46). ring. }
  rewrite Hprod.
  set (mx := 100 * Z.pos m3 * 2 ^ 46) in *.
  assert (Hmx : 2 ^ 104 <= mx < 2 ^ 106).
  { unfold mx. change (2 ^ 104) with (64 * 2 ^ 52 * 2 ^ 46).
    change (2 ^ 106) with (128 * 2 ^ 53 * 2 ^ 46). lia. }
  assert (Hdx : 105 <= Zdigits2 mx <= 106).
  { assert (Hxpos : 0 < mx) by lia.
    destruct mx as [|px|px]; try lia. cbn [Zdigits2].
    pose proof (digits2_pos_bounds px) as Hb.
    set (dx := Z.pos (digits2_pos px)) in *.
    assert (104 < dx) by (apply (Z.pow_lt_mono_r_iff 2); lia).
    assert (dx - 1 < 106) by (apply (Z.pow_lt_mono_r_iff 2); lia).
    lia. }
  destruct (binary_round_aux_bounds false mx (e3 + - 46) loc_Exact
              ltac:(lia) ltac:(lia) ltac:(lia))
    as [m [k [Hround [Hk [Hm [Hlo Hhi]]]]]].
  exists m, k. split; [rewrite Hround; f_equal; lia|].
  split; [lia|]. split; [exact Hm|]. split; [exact Hlo | lia].
Qed.

Lemma pow2_split (a b : Z) : 0 <= a -> 0 <= b -> 2 ^ (a + b) = 2 ^ a * 2 ^ b.
Proof. intros. apply Z.pow_add_r; assumption. Qed.

(** [Math.round((c / n) * 100)] for two lengths: the quotient [m3 / S3] is
    within [1 / S3] of [c / n], the product [m4 / S4] within [1 / S4] of a
    hundred times the quotient, and the result is the product rounded. *)
Lemma percentage_bounds (c n : nat) :
  (0 < c)%nat -> (0 < n)%nat -> Z.of_nat c < 2 ^ 32 -> Z.of_nat n < 2 ^ 32 ->
  exists m3 S3 m4 S4 : Z,
    Groq.percentage c n = (2 * m4 + S4) / (2 * S4)
    /\ 0 < S3 /\ 0 < S4
    /\ 2 ^ 52 <= m3 < 2 ^ 53 /\ 2 ^ 52 <= m4 < 2 ^ 53
    /\ (m3 - 1) * Z.of_nat n <= Z.of_nat c * S3
    /\ Z.of_nat c * S3 <= (m3 + 1) * Z.of_nat n
    /\ (m4 - 1) * S3 <= 100 * m3 * S4
    /\ 100 * m3 * S4 <= (m4 + 1) * S3.
Proof.
  intros Hc Hn Hc32 Hn32.
  destruct (of_length_spec (Z.of_nat c) ltac:(lia)) as [mc [sc [Ec [Hsc [Hmc Hvc]]]]].
  destruct (of_length_spec (Z.of_nat n) ltac:(lia)) as [mn [sn [En [Hsn [Hmn Hvn]]]]].
  destruct (SFdiv_bounds mc mn sc sn Hmc Hmn Hsc Hsn)
    as [m3 [k3 [Ediv [Hk3 [Hm3 [Hlo3 Hhi3]]]]]].
  destruct (SFmul_hundred_bounds m3 (sn - sc - 53 + k3) Hm3 ltac:(lia))
    as [m4 [k4 [Emul [Hk4 [Hm4 [Hlo4 Hhi4]]]]]].
  set (e3 := sn - sc - 53 + k3) in *.
  set (e4 := e3 - 46 + k4) in *.
  assert (He4 : -78 <= e4 <= -12) by (unfold e4, e3; lia).
  exists (Z.pos m3), (2 ^ (- e3)), (Z.pos m4), (2 ^ (- e4)).
  pose proof (Z.pow_pos_nonneg 2 (- e3) ltac:(lia) ltac:(unfold e3; lia)) as HS3.
  pose proof (Z.pow_pos_nonneg 2 (- e4) ltac:(lia) ltac:(lia)) as HS4.
  pose proof (Z.pow_pos_nonneg 2 k3 ltac:(lia) ltac:(lia)) as HP3.
  pose proof (Z.pow_pos_nonneg 2 k4 ltac:(lia) ltac:(lia)) as HP4.
  pose proof (Z.pow_pos_nonneg 2 sn ltac:(lia) ltac:(lia)) as HSn.
  pose proof (Z.pow_pos_nonneg 2 sc ltac:(lia) ltac:(lia)) as HSc.
  assert (Hscale3 : 2 ^ sc * 2 ^ 53 = 2 ^ (- e3) * (2 ^ k3 * 2 ^ sn)).
  { rewrite <- !pow2_split by (unfold e3; lia). f_equal. unfold e3. lia. }
  assert (Hscale4 : 2 ^ (- e4) * 2 ^ k4 = 2 ^ (- e3) * 2 ^ 46).
  { rewrite <- !pow2_split by (unfold e4, e3; lia). f_equal. unfold e4. lia. }
  split; [|repeat split; try assumption; try lia].
  - unfold Groq.percentage, Math_round.
    rewrite FloatAxioms.mul_spec, FloatAxioms.div_spec. unfold Number_of_nat. rewrite Ec, En, hundred_spec.
    unfold FloatAxioms.SF64mul, FloatAxioms.SF64div. rewrite Ediv. fold e3. rewrite Emul. fold e4.
    destruct (Z.leb_spec 0 e4) as [Hbad|_]; [lia|].
    rewrite pow2_succ by lia. reflexivity.
  - (* (m3 - 1) * n <= c * S3 *)
    apply Z.mul_le_mono_pos_r with (2 ^ k3 * 2 ^ sn); [lia|].
    replace (Z.of_nat c * 2 ^ (- e3) * (2 ^ k3 * 2 ^ sn))
      with (Z.pos mc * 2 ^ 53) by (rewrite Hvc; transitivity (Z.of_nat c * (2 ^ sc * 2 ^ 53));
          [ring | rewrite Hscale3; ring]).
    replace ((Z.pos m3 - 1) * Z.of_nat n * (2 ^ k3 * 2 ^ sn))
      with ((Z.pos m3 - 1) * 2 ^ k3 * Z.pos mn) by (rewrite Hvn; ring).
    exact Hlo3.
  - apply Z.mul_le_mono_pos_r with (2 ^ k3 * 2 ^ sn); [lia|].
    replace (Z.of_nat c * 2 ^ (- e3) * (2 ^ k3 * 2 ^ sn))
      with (Z.pos mc * 2 ^ 53) by (rewrite Hvc; transitivity (Z.of_nat c * (2 ^ sc * 2 ^ 53));
          [ring | rewrite Hscale3; ring]).
    replace ((Z.pos m3 + 1) * Z.of_nat n * (2 ^ k3 * 2 ^ sn))
      with ((Z.pos m3 + 1) * 2 ^ k3 * Z.pos mn) by (rewrite Hvn; ring).
    exact Hhi3.
  - apply Z.mul_le_mono_pos_r with (2 ^ 46); [lia|].
    replace ((Z.pos m4 - 1) * 2 ^ (- e3) * 2 ^ 46)
      with ((Z.pos m4 - 1) * 2 ^ k4 * 2 ^ (- e4))
      by (transitivity ((Z.pos m4 - 1) * (2 ^ (- e4) * 2 ^ k4));
          [ring | rewrite Hscale4; ring]).
    replace (100 * Z.pos m3 * 2 ^ (- e4) * 2 ^ 46)
      with (100 * Z.pos m3 * 2 ^ 46 * 2 ^ (- e4)) by ring.
    apply Z.mul_le_mono_nonneg_r; [lia | exact Hlo4].
  - apply Z.mul_le_mono_pos_r with (2 ^ 46); [lia|].
    replace ((Z.pos m4 + 1) * 2 ^ (- e3) * 2 ^ 46)
      with ((Z.pos m4 + 1) * 2 ^ k4 * 2 ^ (- e4))
      by (transitivity ((Z.pos m4 + 1) * (2 ^ (- e4) * 2 ^ k4));
          [ring | rewrite Hscale4; ring]).
    replace (100 * Z.pos m3 * 2 ^ (- e4) * 2 ^ 46)
      with (100 * Z.pos m3 * 2 ^ 46 * 2 ^ (- e4)) by ring.
    apply Z.mul_le_mono_nonneg_r; [lia | exact Hhi4].
Qed.

(** The arithmetic of the rounding: a quotient and a product that are each
    within one unit in the last place give the nearest integer of
    [100 * c / n], unless that lies half way between two integers. *)
Lemma nearest_percentage (c n m3 S3 m4 S4 : Z) :
  0 < c <= n -> n < 2 ^ 32 -> 0 < S3 -> 0 < S4 ->
  2 ^ 52 <= m3 < 2 ^ 53 -> 2 ^ 52 <= m4 < 2 ^ 53 ->
  (m3 - 1) * n <= c * S3 -> c * S3 <= (m3 + 1) * n ->
  (m4 - 1) * S3 <= 100 * m3 * S4 -> 100 * m3 * S4 <= (m4 + 1) * S3 ->
  (2 * m4 + S4) / (2 * S4) = round_half_up (100 * c) n
  \/ ((200 * c) mod (2 * n) = n
      /\ (2 * m4 + S4) / (2 * S4) = round_half_up (100 * c) n - 1).
Proof.
  intros Hc Hn HS3 HS4 Hm3 Hm4 Hd1 Hd2 Hp1 Hp2.
  change (2 ^ 32) with 4294967296 in Hn.
  change (2 ^ 52) with 4503599627370496 in Hm3, Hm4.
  change (2 ^ 53) with 9007199254740992 in Hm3, Hm4.
  (* the scales are large *)
  assert (HS3big : 4503599627370495 <= S3).
  { apply Z.mul_le_mono_pos_l with c; [lia|].
    apply Z.le_trans with ((m3 - 1) * n); [|exact Hd1].
    apply Z.le_trans with (4503599627370495 * n); [lia|].
    apply Z.mul_le_mono_nonneg_r; lia. }
  assert (HS4big : 17592186044416 <= S4).
  { assert (H : 4503599627370495 * 4503599627370495 <= 100 * m3 * S4).
    { apply Z.le_trans with ((m4 - 1) * S3); [|exact Hp1].
      apply Z.mul_le_mono_nonneg; lia. }
    assert (H' : 100 * m3 * S4 <= 900719925474099200 * S4).
    { apply Z.mul_le_mono_nonneg_r; lia. }
    lia. }
  set (E := m4 * n - 100 * c * S4).
  (* the error of the product, scaled by S3 *)
  assert (HE1 : E * S3 <= 100 * n * S4 + S3 * n).
  { assert (H1 : m4 * S3 * n <= (100 * m3 * S4 + S3) * n)
      by (apply Z.mul_le_mono_nonneg_r; lia).
    assert (H2 : 100 * S4 * (m3 * n) <= 100 * S4 * (c * S3 + n))
      by (apply Z.mul_le_mono_nonneg_l; lia).
    unfold E. lia. }
  assert (HE2 : - (100 * n * S4 + S3 * n) <= E * S3).
  { assert (H1 : (100 * m3 * S4 - S3) * n <= m4 * S3 * n)
      by (apply Z.mul_le_mono_nonneg_r; lia).
    assert (H2 : 100 * S4 * (c * S3 - n) <= 100 * S4 * (m3 * n))
      by (apply Z.mul_le_mono_nonneg_l; lia).
    unfold E. lia. }
  assert (Hsmall : 2 * (100 * n * S4 + S3 * n) < S3 * S4).
  { assert (H1 : (800 * n) * S4 <= S3 * S4)
      by (apply Z.mul_le_mono_nonneg_r; lia).
    assert (H2 : S3 * (8 * n) <= S3 * S4)
      by (apply Z.mul_le_mono_nonneg_l; lia).
    assert (H3 : 0 < S3 * S4) by (apply Z.mul_pos_pos; lia).
    lia. }
  assert (HE : - S4 < 2 * E < S4).
  { split.
    - apply Z.mul_lt_mono_pos_r with S3; [lia|]. lia.
    - apply Z.mul_lt_mono_pos_r with S3; [lia|]. lia. }
  assert (HEdef : (2 * m4 + S4) * n = 2 * E + S4 * (200 * c + n))
    by (unfold E; ring).
  clearbody E.
  unfold round_half_up.
  set (r := (2 * m4 + S4) / (2 * S4)).
  set (K := (2 * (100 * c) + n) / (2 * n)).
  pose proof (Z.mul_div_le (2 * m4 + S4) (2 * S4) ltac:(lia)) as Hr1.
  pose proof (Z.mul_succ_div_gt (2 * m4 + S4) (2 * S4) ltac:(lia)) as Hr2.
  pose proof (Z.mul_div_le (2 * (100 * c) + n) (2 * n) ltac:(lia)) as HK1.
  pose proof (Z.mul_succ_div_gt (2 * (100 * c) + n) (2 * n) ltac:(lia)) as HK2.
  fold r in Hr1, Hr2. fold K in HK1, HK2.
  replace (2 * (100 * c) + n) with (200 * c + n) in HK1, HK2 by ring.
  clearbody r K.
  assert (Hup : r <= K).
  { destruct (Z.le_gt_cases r K) as [H|H]; [exact H | exfalso].
    assert (A1 : 2 * S4 * (K + 1) * n <= (2 * m4 + S4) * n).
    { apply Z.mul_le_mono_nonneg_r; [lia|].
      apply Z.le_trans with (2 * S4 * r); [|exact Hr1].
      apply Z.mul_le_mono_nonneg_l; lia. }
    assert (A2 : S4 * (200 * c + n) <= S4 * (2 * n * Z.succ K - 1))
      by (apply Z.mul_le_mono_nonneg_l; lia).
    lia. }
  assert (Hdown : K - 1 <= r).
  { destruct (Z.le_gt_cases (K - 1) r) as [H|H]; [exact H | exfalso].
    assert (A1 : (2 * m4 + S4) * n <= (2 * S4 * (K - 1) - 1) * n).
    { apply Z.mul_le_mono_nonneg_r; [lia|].
      assert (2 * S4 * Z.succ r <= 2 * S4 * (K - 1))
        by (apply Z.mul_le_mono_nonneg_l; lia).
      lia. }
    assert (A2 : S4 * (2 * n * K) <= S4 * (200 * c + n))
      by (apply Z.mul_le_mono_nonneg_l; lia).
    assert (A3 : S4 * 1 <= S4 * n) by (apply Z.mul_le_mono_nonneg_l; lia).
    lia. }
  destruct (Z.eq_dec r K) as [Heq | Hne]; [left; exact Heq | right].
  assert (Hr : r = K - 1) by lia.
  split; [|exact Hr].
  destruct (Z.eq_dec (2 * n * K) (200 * c + n)) as [Htie | Hno].
  - symmetry. apply Z.mod_unique with (K - 1); lia.
  - exfalso.
    assert (A1 : (2 * m4 + S4) * n <= (2 * S4 * K - 1) * n).
    { apply Z.mul_le_mono_nonneg_r; [lia|]. subst r. 
      replace (Z.succ (K - 1)) with K in Hr2 by lia. lia. }
    assert (A2 : S4 * (2 * n * K + 1) <= S4 * (200 * c + n))
      by (apply Z.mul_le_mono_nonneg_l; lia).
    lia.
Qed.

(** [Math.round((c / n) * 100)] is the integer nearest to [100 * c / n]; half
    way between two integers it is one of the two. *)
Lemma percentage_nearest (c n : nat) :
  (0 < n)%nat -> (c <= n)%nat -> Z.of_nat n < 2 ^ 32 ->
  Groq.percentage c n = round_half_up (100 * Z.of_nat c) (Z.of_nat n)
  \/ ((200 * Z.of_nat c) mod (2 * Z.of_nat n) = Z.of_nat n
      /\ Groq.percentage c n = round_half_up (100 * Z.of_nat c) (Z.of_nat n) - 1).
Proof.
  intros Hn Hc Hn32.
  destruct c as [|c'].
  - left. unfold round_half_up. change (Z.of_nat 0) with 0.
    replace (2 * (100 * 0) + Z.of_nat n) with (Z.of_nat n) by ring.
    rewrite Z.div_small by lia.
    unfold Groq.percentage, Math_round.
    rewrite FloatAxioms.mul_spec, FloatAxioms.div_spec.
    destruct (of_length_spec (Z.of_nat n) ltac:(lia)) as [mn [sn [En _]]].
    unfold Number_of_nat. rewrite En, hundred_spec. reflexivity.
  - destruct (percentage_bounds (S c') n ltac:(lia) Hn ltac:(lia) Hn32)
      as [m3 [S3 [m4 [S4 [Hp [HS3 [HS4 [Hm3 [Hm4 [Hd1 [Hd2 [Hp1 Hp2]]]]]]]]]]]].
    rewrite Hp.
    apply nearest_percentage with m3 S3; try assumption; lia.
Qed.

End Percentages.

(* ================================================================== *)
(** ** Insights and reports *)
(* ================================================================== *)

Section Insights.

Import Spec.

Variable rt : Runtime.
Variable this : GroqService.

Lemma titles_are_strings (tasks : list Task.t) :
  all_strings (map (fun t => JString (Task.title t)) tasks) = true.
Proof. induction tasks as [|t l IH]; simpl; [reflexivity | exact IH]. Qed.

(** The fallback Insights meet the structural contract. *)
Lemma fallback_insights_well_shaped (tasks : list Task.t) :
  is_TaskInsights (Groq.getFallbackInsights tasks) = true.
Proof.
  unfold Groq.getFallbackInsights, is_TaskInsights, field_is. cbn -[Groq.percentage Number_toString].
  rewrite titles_are_strings. reflexivity.
Qed.

(** The fallback Report meets the structural contract. *)
Lemma fallback_report_well_shaped (tasks : list Task.t) :
  is_TaskReport (Groq.getFallbackReport tasks) = true.
Proof. reflexivity. Qed.

(** [generateTaskInsights] on a task set that is not empty makes one call
    and never throws: it returns the object extracted from the reply when
    there is one, and the fallback otherwise. *)
Lemma generateTaskInsights_runs (t : Task.t) (ts : list Task.t) (log : Log) :
  let tasks := t :: ts in
  Groq.generateTaskInsights rt this tasks log =
  (Normal
     match usable_insights rt (answer (model this) (insights_prompt rt tasks)) with
     | Some parsed => parsed
     | None => Groq.getFallbackInsights tasks
     end,
   log ++ [insights_prompt rt tasks]).
Proof.
  intros tasks.
  unfold Groq.generateTaskInsights, usable_insights. run_M.
  change (List.length tasks =? 0)%nat with false. cbv iota.
  fold (insights_prompt rt tasks).
  destruct (answer (model this) (insights_prompt rt tasks)) as [response|e];
    [|reflexivity].
  destruct (Groq.jsonMatch (Groq.content_of rt response)) as [found|]; [|reflexivity].
  destruct (JSON_parse rt (group_or_match found)) as [v|e]; [|reflexivity].
  destruct (Groq.validateInsightsStructure v) as [[|]|e]; reflexivity.
Qed.

(** [generateReport] on a task set that is not empty makes one call and
    never throws: it returns the object extracted from the reply when there
    is one, and the fallback otherwise. *)
Lemma generateReport_runs (t : Task.t) (ts : list Task.t) (insights : JSON)
    (user : User.t) (log : Log) :
  let tasks := t :: ts in
  Groq.generateReport rt this tasks insights user log =
  (Normal
     match usable_report rt (answer (model this) (report_prompt rt tasks insights user)) with
     | Some parsed => parsed
     | None => Groq.getFallbackReport tasks
     end,
   log ++ [report_prompt rt tasks insights user]).
Proof.
  intros tasks.
  unfold Groq.generateReport, usable_report. run_M.
  change (List.length tasks =? 0)%nat with false. cbv iota.
  fold (report_prompt rt tasks insights user).
  destruct (answer (model this) (report_prompt rt tasks insights user)) as [response|e];
    [|reflexivity].
  destruct (Groq.jsonMatch (Groq.content_of rt response)) as [found|]; [|reflexivity].
  destruct (JSON_parse rt (trim (group_or_match found))) as [v|e]; [|reflexivity].
  destruct (Groq.validateReportStructure v); reflexivity.
Qed.

(** [generateTaskInsights] returns for every task set, whatever the hosted
    model does. *)
Lemma generateTaskInsights_returns (tasks : list Task.t) (log : Log) :
  exists insights log',
    Groq.generateTaskInsights rt this tasks log = (Normal insights, log').
Proof.
  destruct tasks as [|t ts].
  - eexists. eexists. reflexivity.
  - eexists. eexists. apply generateTaskInsights_runs.
Qed.

End Insights.

Section InsightClaims.

Import Spec.

(** C3. For a task set that is not empty, when the external call throws or
    no object can be extracted from its reply and validated,
    [generateTaskInsights] and [generateReport] return the fallback object,
    which meets the structural contract; and neither ever throws to its
    caller. *)
Theorem ai_failures_fall_back :
  forall (rt : Runtime) (this : GroqService) (tasks : list Task.t)
         (insights : JSON) (user : User.t) (log : Log),
    tasks <> [] ->
    (usable_insights rt (answer (model this) (insights_prompt rt tasks)) = None ->
     Groq.generateTaskInsights rt this tasks log
     = (Normal (Groq.getFallbackInsights tasks), log ++ [insights_prompt rt tasks]))
    /\ is_TaskInsights (Groq.getFallbackInsights tasks) = true
    /\ (usable_report rt (answer (model this) (report_prompt rt tasks insights user)) = None ->
        Groq.generateReport rt this tasks insights user log
        = (Normal (Groq.getFallbackReport tasks),
           log ++ [report_prompt rt tasks insights user]))
    /\ is_TaskReport (Groq.getFallbackReport tasks) = true
    /\ (exists v log', Groq.generateTaskInsights rt this tasks log = (Normal v, log'))
    /\ (exists v log', Groq.generateReport rt this tasks insights user log = (Normal v, log')).
Proof.
  intros rt this [|t ts] insights user log Hne; [contradiction|].
  pose proof (generateTaskInsights_runs rt this t ts log) as HI.
  pose proof (generateReport_runs rt this t ts insights user log) as HR.
  cbv zeta in HI, HR.
  repeat split.
  - intros Hnone. rewrite HI, Hnone. reflexivity.
  - apply fallback_insights_well_shaped.
  - intros Hnone. rewrite HR, Hnone. reflexivity.
  - eexists. eexists. exact HI.
  - eexists. eexists. exact HR.
Qed.

(** The external call fails for one task, and both fallbacks come back. *)
Lemma ai_failures_fall_back_witness :
  Groq.generateTaskInsights Fixtures.runtime Fixtures.unreachable [Fixtures.bobs_task] []
  = (Normal (Groq.getFallbackInsights [Fixtures.bobs_task]),
     [] ++ [insights_prompt Fixtures.runtime [Fixtures.bobs_task]])
  /\ Groq.generateReport Fixtures.runtime Fixtures.unreachable [Fixtures.bobs_task]
       JNull Fixtures.bob []
     = (Normal (Groq.getFallbackReport [Fixtures.bobs_task]),
        [] ++ [report_prompt Fixtures.runtime [Fixtures.bobs_task] JNull Fixtures.bob]).
Proof.
  pose proof (@ai_failures_fall_back Fixtures.runtime Fixtures.unreachable
                [Fixtures.bobs_task] JNull Fixtures.bob []
                ltac:(discriminate)) as H.
  split.
  - apply (proj1 H). reflexivity.
  - apply (proj1 (proj2 (proj2 H))). reflexivity.
Defined.

(** C4. For the empty task set, [generateTaskInsights] returns no groups,
    the starter recommendation and a completion rate of ["0%"], and
    [generateReport] returns the fallback report of no tasks; neither sends
    anything to the hosted model. *)
Theorem empty_task_set_fallbacks :
  forall (rt : Runtime) (this : GroqService) (insights : JSON) (user : User.t)
         (log : Log),
    Groq.generateTaskInsights rt this [] log
    = (Normal
         (JObject
            [ (lit "taskGroups", JArray []);
              (lit "recommendations",
               JArray
                 [ JString (lit "Start by adding some tasks to get AI-powered insights") ]);
              (lit "completionRate", JString (lit "0%")) ]),
       log)
    /\ Groq.generateReport rt this [] insights user log
       = (Normal
            (JObject
               [ (lit "executiveSummary",
                  JObject
                    [ (lit "summary",
                       JString (lit "Task Management Overview (Generated from fallback)"));
                      (lit "metrics",
                       JArray
                         [ JString (lit "Total Tasks: 0");
                           JString (lit "Completed Tasks: 0");
                           JString (lit "Completion Rate: 0%");
                           JString (lit "High Priority Tasks: 0") ]) ]);
                 (lit "taskAnalysis",
                  JString (lit "A detailed task analysis could not be generated at this time. Please try again later."));
                 (lit "productivityMetrics",
                  JString (lit "Current completion rate is 0%. Task metrics are being calculated."));
                 (lit "workStyleAnalysis",
                  JString (lit "Work style analysis is temporarily unavailable. Please try again later."));
                 (lit "recommendations",
                  JArray
                    [ JString (lit "Consider reviewing and updating task priorities");
                      JString (lit "Regular task list maintenance is recommended");
                      JString (lit "Set realistic deadlines for better task management") ]) ]),
          log).
Proof.
  intros rt this insights user log. split; reflexivity.
Qed.

(** C6, as the code has it. For a task set of [n > 0] tasks (fewer than
    2^32, as many as an array holds) of which [c] are completed, the
    fallback Insights report as [completionRate] an integer followed by a
    percent sign: [100 * c / n] rounded to the nearest integer, a tie going
    up, unless [100 * c / n] lies exactly half way between two integers,
    where the rate may also be the lower of the two, because the code
    computes [Math.round((c / n) * 100)] in double precision. For two tasks
    of which one is completed the rate is ["50%"]. *)
Theorem fallback_completion_rate :
  forall tasks : list Task.t,
    (0 < List.length tasks)%nat ->
    (Z.of_nat (List.length tasks) < 2 ^ 32)%Z ->
    let n := Z.of_nat (List.length tasks) in
    let c := Z.of_nat (List.length (filter is_completed tasks)) in
    let completionRate := field (Groq.getFallbackInsights tasks) "completionRate" in
    (completionRate
     = Some (JString (Number_toString (round_half_up (100 * c) n) ++ lit "%"))
     \/ ((200 * c) mod (2 * n) = n
         /\ completionRate
            = Some (JString (Number_toString (round_half_up (100 * c) n - 1)
                               ++ lit "%"))))%Z
    /\ (n = 2%Z -> c = 1%Z -> completionRate = Some (JString (lit "50%"))).
Proof.
  intros tasks Hpos Hbound n c completionRate.
  assert (Hfield : completionRate
                   = Some (JString
                             (Number_toString
                                (Groq.percentage
                                   (List.length (filter is_completed tasks))
                                   (List.length tasks)) ++ lit "%"))).
  { unfold completionRate, Groq.getFallbackInsights, field.
    cbn -[Groq.percentage Number_toString Nat.ltb].
    destruct (Nat.ltb_spec 0 (List.length tasks)) as [_|Hle]; [reflexivity | lia]. }
  assert (Hnearest :
            (completionRate
             = Some (JString (Number_toString (round_half_up (100 * c) n) ++ lit "%"))
             \/ ((200 * c) mod (2 * n) = n
                 /\ completionRate
                    = Some (JString (Number_toString (round_half_up (100 * c) n - 1)
                                       ++ lit "%"))))%Z).
  { rewrite Hfield.
    destruct (percentage_nearest (List.length (filter is_completed tasks))
                (List.length tasks) Hpos (filter_length_le _ _) Hbound)
      as [Hexact | [Htie Hlower]].
    - left. rewrite Hexact. reflexivity.
    - right. split; [exact Htie|]. rewrite Hlower. reflexivity. }
  split; [exact Hnearest|].
  intros Hn Hc. destruct Hnearest as [Hexact | [Htie _]].
  - rewrite Hexact, Hn, Hc. reflexivity.
  - rewrite Hn, Hc in Htie. discriminate.
Qed.

(** Two tasks, one of them completed. *)
Lemma fallback_completion_rate_witness :
  field
    (Groq.getFallbackInsights
       [Fixtures.task 1 1 "write" true; Fixtures.task 2 1 "review" false])
    "completionRate"
  = Some (JString (lit "50%")).
Proof.
  apply (proj2 (fallback_completion_rate
                  [Fixtures.task 1 1 "write" true; Fixtures.task 2 1 "review" false]
                  ltac:(simpl; lia) ltac:(reflexivity)));
    reflexivity.
Defined.

(** Half way between two integers the rate goes either way: 12.5 comes out
    as 13 and 57.5 as 57. *)
Example ties_round_either_way :
  Groq.percentage 1 8 = 13%Z /\ round_half_up (100 * 1) 8 = 13%Z
  /\ Groq.percentage 23 40 = 57%Z /\ round_half_up (100 * 23) 40 = 58%Z.
Proof. repeat split; vm_compute; reflexivity. Qed.

(** C6, as stated, fails: of forty tasks twenty-three are completed, the
    exact percentage is 57.5, which rounds to 58, and the fallback reports
    ["57%"], because [(23 / 40) * 100] is 57.49999999999999 in double
    precision. *)
Lemma completion_rate_23_of_40 :
  List.length Fixtures.forty_tasks = 40%nat
  /\ List.length (filter is_completed Fixtures.forty_tasks) = 23%nat
  /\ round_half_up (100 * 23) 40 = 58%Z
  /\ field (Groq.getFallbackInsights Fixtures.forty_tasks) "completionRate"
     = Some (JString (lit "57%")).
Proof. repeat split; vm_compute; reflexivity. Qed.

End InsightClaims.

(* ================================================================== *)
(** ** The task payload *)
(* ================================================================== *)

Section Payload.

Import Spec.

Variable rt : Runtime.

Lemma title_schema_spec (v : option JSON) :
  match Schema.title_schema v with
  | inr s => v = Some (JString s)
  | inl l => is_string v = false /\ l = [Schema.issue "invalid_type" [lit "title"]]
  end.
Proof. destruct v as [[| | | | |]|]; simpl; auto. Qed.

Lemma priority_schema_spec (v : option JSON) :
  match Schema.priority_schema v with
  | inr s => v = Some (JString s) /\ existsb (str_eqb s) Schema.priorities = true
  | inl l =>
      match v with
      | Some (JString s) => existsb (str_eqb s) Schema.priorities = false
      | _ => True
      end
      /\ exists c, l = [Schema.issue c [lit "priority"]]
  end.
Proof.
  unfold Schema.priority_schema.
  destruct v as [[| | |s| |]|]; try (split; [exact I | eexists; reflexivity]).
  destruct (existsb (str_eqb s) Schema.priorities) eqn:E.
  - split; [reflexivity | exact E].
  - split; [reflexivity | eexists; reflexivity].
Qed.

Lemma description_schema_spec (v : option JSON) :
  match Schema.description_schema v with
  | inr d =>
      column d = match v with Some (JString s) => Some s | _ => None end
      /\ match v with None | Some JNull | Some (JString _) => True | _ => False end
  | inl l =>
      match v with None | Some JNull | Some (JString _) => False | _ => True end
      /\ l = [Schema.issue "invalid_type" [lit "description"]]
  end.
Proof. destruct v as [[| | | | |]|]; simpl; auto. Qed.

Lemma dueDate_schema_spec (v : option JSON) :
  match Schema.dueDate_schema rt v with
  | inr _ => match v with None | Some JNull | Some (JString _) => True | _ => False end
  | inl l =>
      match v with None | Some JNull | Some (JString _) => False | _ => True end
      /\ l = [Schema.issue "invalid_union" [lit "dueDate"]]
  end.
Proof. destruct v as [[| | | | |]|]; simpl; auto. Qed.

(** A well-formed payload passes the schema, which keeps its title, its
    priority and its description as they are. *)
Lemma well_formed_parses (b : JSON) :
  well_formed b = true ->
  exists validated,
    Schema.insertTaskSchema_parse rt b = Normal validated
    /\ field b "title" = Some (JString (InsertTask.title validated))
    /\ field b "priority" = Some (JString (InsertTask.priority validated))
    /\ column (InsertTask.description validated)
       = match field b "description" with
         | Some (JString d) => Some d
         | _ => None
         end.
Proof.
  destruct b as [| | | | |fields]; try discriminate.
  unfold well_formed, field_is, field, Schema.insertTaskSchema_parse.
  pose proof (title_schema_spec (lookup (lit "title") fields)) as Ht.
  pose proof (priority_schema_spec (lookup (lit "priority") fields)) as Hp.
  pose proof (description_schema_spec (lookup (lit "description") fields)) as Hd.
  pose proof (dueDate_schema_spec (lookup (lit "dueDate") fields)) as Hdd.
  intros H. repeat rewrite andb_true_iff in H.
  destruct H as [[[H1 H2] H3] H4].
  destruct (Schema.title_schema _) as [lt|t].
  { destruct Ht as [Ht _]. destruct (lookup (lit "title") fields) as [[| | | | |]|];
      simpl in *; discriminate. }
  destruct (Schema.priority_schema _) as [lp|pr].
  { destruct Hp as [Hp _]. destruct (lookup (lit "priority") fields) as [[| | |x| |]|];
      simpl in *; try discriminate. congruence. }
  destruct (Schema.description_schema _) as [ld|d].
  { destruct Hd as [Hd _]. destruct (lookup (lit "description") fields) as [[| | | | |]|];
      simpl in *; try discriminate; contradiction. }
  destruct (Schema.dueDate_schema rt _) as [ldd|dd].
  { destruct Hdd as [Hdd _]. destruct (lookup (lit "dueDate") fields) as [[| | | | |]|];
      simpl in *; try discriminate; contradiction. }
  eexists. split; [reflexivity|]. simpl.
  destruct Hp as [Hp _]. destruct Hd as [Hd _].
  repeat split; assumption.
Qed.

Lemma issues_collected {A B C D : Type}
    (t : list ZodIssue + A) (d : list ZodIssue + B)
    (p : list ZodIssue + C) (dd : list ZodIssue + D)
    (k : A -> B -> C -> D -> InsertTask.t) :
  Schema.issues_of t ++ Schema.issues_of d ++ Schema.issues_of p ++ Schema.issues_of dd <> [] ->
  match t, d, p, dd with
  | inr t', inr d', inr p', inr dd' => Normal (k t' d' p' dd')
  | _, _, _, _ =>
      Throw (Schema.zodError
               (Schema.issues_of t ++ Schema.issues_of d
                  ++ Schema.issues_of p ++ Schema.issues_of dd))
  end
  = Throw (Schema.zodError
             (Schema.issues_of t ++ Schema.issues_of d
                ++ Schema.issues_of p ++ Schema.issues_of dd)).
Proof.
  destruct t, d, p, dd; simpl; intros H; try reflexivity. contradiction.
Qed.

(** A payload that is not well formed makes the schema throw a validation
    error that names the fields at fault. *)
Lemma malformed_throws (b : JSON) :
  well_formed b = false ->
  exists e,
    Schema.insertTaskSchema_parse rt b = Throw e
    /\ name e = ZodError
    /\ issues e <> []
    /\ match b with
       | JObject fields =>
           (field_is fields "title" a_string = false -> complains_about e "title")
           /\ (field_is fields "priority"
                 (fun p =>
                    match p with
                    | JString s => existsb (str_eqb s) Schema.priorities
                    | _ => false
                    end) = false -> complains_about e "priority")
       | _ => issues e = [Schema.issue "invalid_type" []]
       end.
Proof.
  destruct b as [| | | | |fields];
    try (intros _; eexists; repeat split; discriminate).
  unfold well_formed, field_is, Schema.insertTaskSchema_parse.
  pose proof (title_schema_spec (lookup (lit "title") fields)) as Ht.
  pose proof (priority_schema_spec (lookup (lit "priority") fields)) as Hp.
  pose proof (description_schema_spec (lookup (lit "description") fields)) as Hd.
  pose proof (dueDate_schema_spec (lookup (lit "dueDate") fields)) as Hdd.
  intros H.
  set (t := Schema.title_schema _) in *.
  set (p := Schema.priority_schema _) in *.
  set (d := Schema.description_schema _) in *.
  set (dd := Schema.dueDate_schema rt _) in *.
  assert (Hne : Schema.issues_of t ++ Schema.issues_of d
                  ++ Schema.issues_of p ++ Schema.issues_of dd <> []).
  { destruct t as [lt|t']; [destruct Ht as [_ ->]; discriminate|].
    destruct p as [lp|p']; [destruct Hp as [_ [c ->]]; simpl;
                             destruct (Schema.issues_of d); discriminate|].
    destruct d as [ld|d']; [destruct Hd as [_ ->]; discriminate|].
    destruct dd as [ldd|dd']; [destruct Hdd as [_ ->]; discriminate|].
    exfalso. rewrite Ht in H. destruct Hp as [Hp1 Hp2]. rewrite Hp1 in H.
    unfold a_string, is_string in H. cbv beta iota in H.
    rewrite Hp2 in H. cbn [andb] in H. destruct Hd as [_ Hd].
    destruct (lookup (lit "description") fields) as [[| | | | |]|];
      try contradiction;
      destruct (lookup (lit "dueDate") fields) as [[| | | | |]|];
      try contradiction; discriminate. }
  eexists. split; [apply issues_collected, Hne|].
  repeat split.
  - exact Hne.
  - intros Hbad. destruct t as [lt|t'].
    + destruct Ht as [_ ->]. eexists. split; [left; reflexivity | reflexivity].
    + rewrite Ht in Hbad. discriminate.
  - intros Hbad. destruct p as [lp|p'].
    + destruct Hp as [_ [c ->]]. exists (Schema.issue c [lit "priority"]).
      split; [|reflexivity].
      simpl. apply in_or_app. right. apply in_or_app. right. left. reflexivity.
    + destruct Hp as [Hp1 Hp2]. rewrite Hp1 in Hbad. congruence.
Qed.




End Payload.

(* ================================================================== *)
(** ** The routes *)
(* ================================================================== *)

Section RouteClaims.

Import Spec.

(** [PATCH] and [DELETE] hand the store the identifier of the path and the
    body and nothing of the session: whoever is signed in, the same request
    has the same effect. This holds for every store. *)
Lemma patch_and_delete_ignore_the_requester (Store : Type) (storage : IStorage Store)
    (u v : User.t) (pid : jsstring) (b : JSON) (w : World Store) :
  Routes.patch_task storage {| user := Some u; params_id := pid; body := b |} w
  = Routes.patch_task storage {| user := Some v; params_id := pid; body := b |} w
  /\ Routes.delete_task storage {| user := Some u; params_id := pid; body := b |} w
     = Routes.delete_task storage {| user := Some v; params_id := pid; body := b |} w.
Proof. split; reflexivity. Qed.

(** [GET /api/tasks] answers with the tasks of the session's user and
    leaves the store as it is. *)
Lemma get_tasks_runs (Store : Type) (storage : IStorage Store)
    (u : User.t) (pid : jsstring) (b : JSON) (w : World Store) :
  Routes.get_tasks storage {| user := Some u; params_id := pid; body := b |} w
  = (Normal (json 200 (TaskList (getTasksByUserId storage (User.id u) (db w)))), w).
Proof. reflexivity. Qed.

(** In the store as the specification describes it, listing returns no task
    of another user. *)
Lemma listed_tasks_are_own (userId : Z) (d : DatabaseStorage.Database) (t : Task.t) :
  In t (DatabaseStorage.getTasksByUserId userId d) -> Task.userId t = userId.
Proof.
  unfold DatabaseStorage.getTasksByUserId. intros H.
  apply filter_In in H. destruct H as [_ H]. apply Z.eqb_eq, H.
Qed.

(** C1, where the code departs from it. Bob owns task 7 and Alice is
    another user. Alice's [PATCH /api/tasks/7] is answered with Bob's task,
    now completed, and changes it in the store; her [DELETE /api/tasks/7]
    removes it: Bob's list is empty afterwards. *)
Theorem patch_and_delete_reach_another_users_task :
  Task.userId Fixtures.bobs_task = User.id Fixtures.bob
  /\ Z.eqb (User.id Fixtures.alice) (User.id Fixtures.bob) = false
  /\ Fixtures.run Fixtures.unreachable PATCH_api_tasks_id
       (Fixtures.request Fixtures.alice "7" (JObject [(lit "completed", JBool true)]))
       (Fixtures.world Fixtures.bobs_db)
     = (Normal (json 200 (OneTask (Fixtures.task 7 2 "pay rent" true))),
        Fixtures.world
          {| DatabaseStorage.rows := [Fixtures.task 7 2 "pay rent" true];
             DatabaseStorage.next_id := 8;
             DatabaseStorage.now := Some 0%Z |})
  /\ Fixtures.run Fixtures.unreachable DELETE_api_tasks_id
       (Fixtures.request Fixtures.alice "7" JNull)
       (Fixtures.world Fixtures.bobs_db)
     = (Normal (sendStatus 204),
        Fixtures.world
          {| DatabaseStorage.rows := [];
             DatabaseStorage.next_id := 8;
             DatabaseStorage.now := Some 0%Z |}).
Proof. repeat split. Qed.




Lemma validated_report_is_truthy (v : JSON) :
  Groq.validateReportStructure v = true -> truthy v = true.
Proof.
  unfold Groq.validateReportStructure, and_then.
  destruct (truthy v); [reflexivity | discriminate].
Qed.

(** C7. [GET /api/report] answers 400 exactly when the user of the session
    has no task, with the message that no tasks were found; otherwise it
    computes Insights from the user's tasks, passes them into the generation
    of the report, and answers with that report. *)
Theorem report_requires_tasks :
  forall (Store : Type) (storage : IStorage Store) (rt : Runtime)
         (service : GroqService) (u : User.t) (pid : jsstring) (b : JSON)
         (w : World Store),
    let req := {| user := Some u; params_id := pid; body := b |} in
    let tasks := getTasksByUserId storage (User.id u) (db w) in
    (status_of (fst (Routes.get_report storage rt service req w)) = Some 400%Z
     <-> tasks = [])
    /\ match tasks with
       | [] =>
           Routes.get_report storage rt service req w
           = (Normal
                (json 400
                   (Data
                      (JObject
                         [ (lit "message",
                            JString
                              (lit "No tasks found. Please add some tasks before generating a report.")) ]))),
              w)
       | _ :: _ =>
           exists insights log1 report log2,
             Groq.generateTaskInsights rt service tasks (sent w) = (Normal insights, log1)
             /\ Groq.generateReport rt service tasks insights u log1 = (Normal report, log2)
             /\ Routes.get_report storage rt service req w
                = (Normal (json 200 (Data report)), {| db := db w; sent := log2 |})
       end.
Proof.
  intros Store storage rt service u pid b w req tasks.
  assert (Hrun :
    match tasks with
    | [] =>
        Routes.get_report storage rt service req w
        = (Normal (json 400 (Data Routes.no_tasks_message)), w)
    | _ :: _ =>
        exists insights log1 report log2,
          Groq.generateTaskInsights rt service tasks (sent w) = (Normal insights, log1)
          /\ Groq.generateReport rt service tasks insights u log1 = (Normal report, log2)
          /\ Routes.get_report storage rt service req w
             = (Normal (json 200 (Data report)), {| db := db w; sent := log2 |})
    end).
  { unfold Routes.get_report. run_M.
    simpl. fold tasks. destruct tasks as [|t ts]; [reflexivity|].
    change (List.length (t :: ts) =? 0)%nat with false. cbv iota.
    pose proof (generateTaskInsights_runs rt service t ts (sent w)) as HI.
    cbv zeta in HI. rewrite HI.
    set (insights := match usable_insights rt _ with Some p => p | None => _ end).
    pose proof (generateReport_runs rt service t ts insights u
                  (sent w ++ [insights_prompt rt (t :: ts)])) as HR.
    cbv zeta in HR.
    exists insights. eexists. eexists. eexists.
    split; [reflexivity|]. split; [exact HR|].
    rewrite HI. cbn [sent db]. fold insights. rewrite HR.
    assert (Htruthy :
      truthy match usable_report rt
                     (answer (model service) (report_prompt rt (t :: ts) insights u)) with
             | Some parsed => parsed
             | None => Groq.getFallbackReport (t :: ts)
             end = true).
    { unfold usable_report.
      destruct (answer (model service) (report_prompt rt (t :: ts) insights u))
        as [response|e]; [|reflexivity].
      destruct (Groq.jsonMatch _) as [found|]; [|reflexivity].
      destruct (JSON_parse rt _) as [v|e]; [|reflexivity].
      destruct (Groq.validateReportStructure v) eqn:Hv; [|reflexivity].
      apply validated_report_is_truthy, Hv. }
    rewrite Htruthy. reflexivity. }
  split; [|exact Hrun].
  destruct tasks as [|t ts].
  - rewrite Hrun. simpl. split; reflexivity.
  - destruct Hrun as [insights [log1 [report [log2 [_ [_ Hrun]]]]]].
    rewrite Hrun. simpl. split; discriminate.
Qed.

(** C8. [POST /api/insights/refresh] does exactly what [GET /api/insights]
    does: in every state and for every request the two answer alike and leave
    the same state behind. For an authenticated request both fetch the tasks
    of the session's user and answer with the Insights generated from them
    in that call. *)
Theorem insights_refresh_is_get_insights :
  forall (Store : Type) (storage : IStorage Store) (rt : Runtime)
         (service : GroqService) (req : Request) (w : World Store),
    Routes.registerRoutes storage rt service POST_api_insights_refresh req w
    = Routes.registerRoutes storage rt service GET_api_insights req w
    /\ match user req with
       | None =>
           Routes.registerRoutes storage rt service GET_api_insights req w
           = (Normal (sendStatus 401), w)
       | Some u =>
           exists insights log,
             Groq.generateTaskInsights rt service
               (getTasksByUserId storage (User.id u) (db w)) (sent w)
             = (Normal insights, log)
             /\ Routes.registerRoutes storage rt service GET_api_insights req w
                = (Normal (json 200 (Data insights)), {| db := db w; sent := log |})
       end.
Proof.
  intros Store storage rt service req w. split; [reflexivity|].
  unfold Routes.registerRoutes, Routes.get_insights.
  destruct (user req) as [u|]; [|reflexivity].
  destruct (generateTaskInsights_returns rt service
              (getTasksByUserId storage (User.id u) (db w)) (sent w))
    as [insights [log Hrun]].
  exists insights, log. split; [exact Hrun|].
  run_M. simpl. rewrite Hrun. reflexivity.
Qed.

(** C9. In the store as the specification describes it: when an
    authenticated user posts a well-formed payload, the task is created, and
    listing that user's tasks afterwards yields it, with the title and the
    priority of the payload and with its description ([null] when the payload
    gave none). *)
Theorem create_then_list_round_trip :
  forall (rt : Runtime) (service : GroqService) (u : User.t)
         (pid pid' : jsstring) (b b' : JSON)
         (w : World DatabaseStorage.Database),
    well_formed b = true ->
    exists created w' listed,
      Routes.post_tasks DatabaseStorage.storage rt service
        {| user := Some u; params_id := pid; body := b |} w
      = (Normal (json 201 (OneTask created)), w')
      /\ Routes.get_tasks DatabaseStorage.storage
           {| user := Some u; params_id := pid'; body := b' |} w'
         = (Normal (json 200 (TaskList listed)), w')
      /\ In created listed
      /\ field b "title" = Some (JString (Task.title created))
      /\ field b "priority" = Some (JString (Task.priority created))
      /\ Task.description created
         = match field b "description" with
           | Some (JString d) => Some d
           | _ => None
           end.
Proof.
  intros rt service u pid pid' b b' w Hok.
  destruct (well_formed_parses rt b Hok) as [validated [Hparse [Ht [Hp Hd]]]].
  rewrite post_tasks_runs, Hparse. cbv zeta.
  rewrite generateTaskTags_runs.
  eexists. eexists. eexists.
  split; [reflexivity|].
  split; [apply get_tasks_runs|].
  split.
  - simpl. unfold DatabaseStorage.getTasksByUserId. simpl.
    apply filter_In. split.
    + apply in_or_app. right. left. reflexivity.
    + simpl. apply Z.eqb_refl.
  - simpl. repeat split; assumption.
Qed.

(** Alice posts a task with a description and lists her tasks. *)
Lemma create_then_list_round_trip_witness :
  exists created w' listed,
    Fixtures.run Fixtures.unreachable POST_api_tasks
      (Fixtures.request Fixtures.alice ""
         (JObject [ (lit "title", JString (lit "buy milk"));
                    (lit "priority", JString (lit "high"));
                    (lit "description", JString (lit "two litres")) ]))
      (Fixtures.world Fixtures.bobs_db)
    = (Normal (json 201 (OneTask created)), w')
    /\ Fixtures.run Fixtures.unreachable GET_api_tasks
         (Fixtures.request Fixtures.alice "" JNull) w'
       = (Normal (json 200 (TaskList listed)), w')
    /\ In created listed
    /\ Task.title created = lit "buy milk"
    /\ Task.priority created = lit "high"
    /\ Task.description created = Some (lit "two litres").
Proof.
  destruct (@create_then_list_round_trip Fixtures.runtime Fixtures.unreachable
              Fixtures.alice (lit "") (lit "")
              (JObject [ (lit "title", JString (lit "buy milk"));
                         (lit "priority", JString (lit "high"));
                         (lit "description", JString (lit "two litres")) ])
              JNull (Fixtures.world Fixtures.bobs_db) eq_refl)
    as [created [w' [listed [Hpost [Hget [Hin [Ht [Hp Hd]]]]]]]].
  exists created, w', listed.
  split; [exact Hpost|]. split; [exact Hget|]. split; [exact Hin|].
  simpl in Ht, Hp, Hd.
  split; [congruence|]. split; [congruence | exact Hd].
Defined.

End RouteClaims.

(* ================================================================== *)
(** ** Further properties of the handlers and of the wrapper *)
(* ================================================================== *)

Section Further.

Import Spec.

(** Without a session every route answers 401 and nothing else happens. *)
Theorem unauthenticated_requests_get_401 :
  forall (Store : Type) (storage : IStorage Store) (rt : Runtime)
         (service : GroqService) (route : Route) (pid : jsstring) (b : JSON)
         (w : World Store),
    Routes.registerRoutes storage rt service route
      {| user := None; params_id := pid; body := b |} w
    = (Normal (sendStatus 401), w).
Proof. intros Store storage rt service route pid b w. destruct route; reflexivity. Qed.

(** [PATCH /api/tasks/:id] answers 404 when the store reports no task for
    the identifier and 200 with the updated task otherwise. *)
Theorem patch_answers_404_or_the_task :
  forall (Store : Type) (storage : IStorage Store) (rt : Runtime)
         (service : GroqService) (u : User.t) (pid : jsstring) (b : JSON)
         (w : World Store),
    Routes.registerRoutes storage rt service PATCH_api_tasks_id
      {| user := Some u; params_id := pid; body := b |} w
    = match updateTask storage (parseInt pid) b (db w) with
      | (None, d) => (Normal (sendStatus 404), {| db := d; sent := sent w |})
      | (Some task, d) =>
          (Normal (json 200 (OneTask task)), {| db := d; sent := sent w |})
      end.
Proof.
  intros Store storage rt service u pid b w.
  unfold Routes.registerRoutes, Routes.patch_task. run_M. simpl.
  destruct (updateTask storage (parseInt pid) b (db w)) as [[task|] d]; reflexivity.
Qed.

Lemma has_true (v : JSON) (k : string) (test : option JSON -> bool) :
  test None = false ->
  Groq.has v k test = Normal true ->
  exists fields p, v = JObject fields /\ lookup (lit k) fields = Some p
                   /\ test (Some p) = true.
Proof.
  intros Hnone. unfold Groq.has, get.
  destruct v as [| | | | |fields]; try discriminate;
    try (intros H; injection H as H; congruence).
  destruct (lookup (lit k) fields) as [p|] eqn:E.
  - intros H. injection H as H. exists fields, p. auto.
  - intros H. injection H as H. congruence.
Qed.

Lemma every_true (f : JSON -> Completion bool) (g : JSON -> bool) (items : list JSON) :
  (forall x, f x = Normal true -> g x = true) ->
  every f items = Normal true -> forallb g items = true.
Proof.
  intros Hfg. induction items as [|x r IH]; simpl; [reflexivity|].
  destruct (f x) as [[|]|e] eqn:E; try discriminate.
  intros H. rewrite (Hfg x E), (IH H). reflexivity.
Qed.

Lemma and_then_true (a b : Completion bool) :
  and_then a b = Normal true -> a = Normal true /\ b = Normal true.
Proof. destruct a as [[|]|e]; simpl; intros H; try discriminate. auto. Qed.

(** What passes [validateInsightsStructure] has the shape it checks. *)
Lemma validated_insights_shape (v : JSON) :
  Groq.validateInsightsStructure v = Normal true -> checked_TaskInsights v = true.
Proof.
  unfold Groq.validateInsightsStructure. intros H.
  apply and_then_true in H. destruct H as [_ H].
  apply and_then_true in H. destruct H as [Hgroups H].
  apply and_then_true in H. destruct H as [Hevery H].
  apply and_then_true in H. destruct H as [Hrecs Hrate].
  apply has_true in Hgroups; [|reflexivity].
  destruct Hgroups as [fields [groups [-> [Hg Hgarr]]]].
  apply has_true in Hrecs; [|reflexivity].
  destruct Hrecs as [fields' [recs [Heq [Hr Hrarr]]]]. injection Heq as <-.
  apply has_true in Hrate; [|reflexivity].
  destruct Hrate as [fields' [rate [Heq [Hc Hcstr]]]]. injection Heq as <-.
  simpl in Hevery. rewrite Hg in Hevery.
  destruct groups as [| | | |items|]; try discriminate.
  assert (Hall :
    forallb
      (fun group =>
         match group with
         | JObject g => field_is g "name" a_string && field_is g "tasks" an_array
         | _ => false
         end) items = true).
  { eapply every_true; [|exact Hevery].
    intros group Hgroup.
    apply and_then_true in Hgroup. destruct Hgroup as [Hname Htasks].
    apply has_true in Hname; [|reflexivity].
    destruct Hname as [g [n [-> [Hn Hnstr]]]].
    apply has_true in Htasks; [|reflexivity].
    destruct Htasks as [g' [ts [Heq [Ht Htarr]]]]. injection Heq as <-.
    unfold field_is, a_string, an_array. rewrite Hn, Ht, Hnstr, Htarr. reflexivity. }
  unfold checked_TaskInsights.
  unfold field_is at 1 4 5. rewrite Hg, Hr, Hc, Hall.
  unfold a_string, an_array. rewrite Hrarr, Hcstr. reflexivity.
Qed.

Lemma strings_are_checked (tasks : list Task.t) :
  checked_TaskInsights (Groq.getFallbackInsights tasks) = true.
Proof. reflexivity. Qed.

(** Whatever the hosted model does, [generateTaskInsights] returns, without
    throwing, an object of the shape [validateInsightsStructure] checks:
    an array of groups with a string name and an array of tasks, an array of
    recommendations and a string completion rate. *)
Theorem insights_always_have_the_checked_shape :
  forall (rt : Runtime) (this : GroqService) (tasks : list Task.t) (log : Log),
  exists insights log',
    Groq.generateTaskInsights rt this tasks log = (Normal insights, log')
    /\ checked_TaskInsights insights = true.
Proof.
  intros rt this [|t ts] log.
  - eexists. eexists. split; reflexivity.
  - pose proof (generateTaskInsights_runs rt this t ts log) as H. cbv zeta in H.
    eexists. eexists. split; [exact H|].
    unfold usable_insights.
    destruct (answer (model this) _) as [response|e]; [|apply strings_are_checked].
    destruct (Groq.jsonMatch _) as [found|]; [|apply strings_are_checked].
    destruct (JSON_parse rt _) as [v|e]; [|apply strings_are_checked].
    destruct (Groq.validateInsightsStructure v) as [[|]|e] eqn:Hv;
      try apply strings_are_checked.
    apply validated_insights_shape, Hv.
Qed.

(** A reply with the Insights in a fenced block is used as it is; a reply
    with no JSON, with another JSON object, or no reply at all, gives the
    fallback. *)
Example insights_from_replies :
  let tasks := [Fixtures.bobs_task] in
  let run reply :=
    fst (Groq.generateTaskInsights Fixtures.runtime (Fixtures.replying reply) tasks []) in
  run (lit "Here are your insights:
```json
" ++ Fixtures.some_insights_text ++ lit "
```
Anything else?") = Normal Fixtures.some_insights
  /\ run Fixtures.some_insights_text = Normal Fixtures.some_insights
  /\ run (lit "I cannot help with that.") = Normal (Groq.getFallbackInsights tasks)
  /\ run (lit "{}") = Normal (Groq.getFallbackInsights tasks)
  /\ fst (Groq.generateTaskInsights Fixtures.runtime Fixtures.unreachable tasks [])
     = Normal (Groq.getFallbackInsights tasks).
Proof. repeat split; vm_compute; reflexivity. Qed.

End Further.

(* ================================================================== *)
(** ** What the validators accept *)
(* ================================================================== *)

Section Validators.

Import Spec Props.

Lemma field_is_true (fields : list (jsstring * JSON)) (k : string) (test : JSON -> bool) :
  field_is fields k test = true ->
  exists v, lookup (lit k) fields = Some v /\ test v = true.
Proof.
  unfold field_is. destruct (lookup (lit k) fields) as [v|]; [|discriminate].
  intros H. exists v. auto.
Qed.

Lemma has_field (fields : list (jsstring * JSON)) (k : string)
    (test : option JSON -> bool) :
  Groq.has (JObject fields) k test = Normal (test (lookup (lit k) fields)).
Proof. reflexivity. Qed.

Lemma every_complete (f : JSON -> Completion bool) (g : JSON -> bool) (items : list JSON) :
  (forall x, g x = true -> f x = Normal true) ->
  forallb g items = true -> every f items = Normal true.
Proof.
  intros Hgf. induction items as [|x r IH]; simpl; [reflexivity|].
  intros H. apply andb_true_iff in H. destruct H as [Hx Hr].
  rewrite (Hgf x Hx). apply IH, Hr.
Qed.

Lemma checked_insights_validate (v : JSON) :
  checked_TaskInsights v = true -> Groq.validateInsightsStructure v = Normal true.
Proof.
  destruct v as [| | | | |fields]; try discriminate.
  unfold checked_TaskInsights. intros H.
  apply andb_true_iff in H. destruct H as [H Hrate].
  apply andb_true_iff in H. destruct H as [Hgroups Hrecs].
  apply field_is_true in Hgroups. destruct Hgroups as [groups [Hg Hitems]].
  apply field_is_true in Hrecs. destruct Hrecs as [recs [Hr Hrarr]].
  apply field_is_true in Hrate. destruct Hrate as [rate [Hc Hcstr]].
  destruct groups as [| | | |items|]; try discriminate.
  unfold Groq.validateInsightsStructure.
  rewrite !has_field, Hg, Hr, Hc. simpl get. rewrite Hg.
  unfold an_array in Hrarr. unfold a_string in Hcstr. rewrite Hrarr, Hcstr.
  simpl.
  assert (Hall :
    every
      (fun group =>
         and_then (Groq.has group "name" is_string) (Groq.has group "tasks" isArray))
      items = Normal true).
  { eapply every_complete; [|exact Hitems].
    intros [| | | | |g] Hgroup; try discriminate.
    apply andb_true_iff in Hgroup. destruct Hgroup as [Hname Htasks].
    apply field_is_true in Hname. destruct Hname as [n [Hn Hnstr]].
    apply field_is_true in Htasks. destruct Htasks as [ts [Ht Htarr]].
    rewrite !has_field, Hn, Ht. unfold a_string in Hnstr. unfold an_array in Htarr.
    rewrite Hnstr, Htarr. reflexivity. }
  rewrite Hall. reflexivity.
Qed.

Lemma validated_report_shape (v : JSON) :
  Groq.validateReportStructure v = true -> checked_TaskReport v = true.
Proof.
  unfold Groq.validateReportStructure.
  match goal with |- (match ?c with _ => _ end) = true -> _ => destruct c as [b|e] eqn:E end;
    [|discriminate].
  intros ->.
  apply and_then_true in E. destruct E as [_ E].
  apply and_then_true in E. destruct E as [Hes E].
  apply and_then_true in E. destruct E as [Hsummary E].
  apply and_then_true in E. destruct E as [Hmetrics E].
  apply and_then_true in E. destruct E as [Hta E].
  apply and_then_true in E. destruct E as [Hpm E].
  apply and_then_true in E. destruct E as [Hws Hrecs].
  apply has_true in Hes; [|reflexivity].
  destruct Hes as [fields [es [-> [Hes Hobj]]]].
  simpl get in Hsummary, Hmetrics. rewrite Hes in Hsummary, Hmetrics.
  rewrite has_field in Hta, Hpm, Hws, Hrecs.
  injection Hta as Hta. injection Hpm as Hpm. injection Hws as Hws.
  injection Hrecs as Hrecs.
  unfold checked_TaskReport, field_is. rewrite Hes.
  destruct es as [| | | | |s]; simpl in Hsummary, Hmetrics; try discriminate.
  injection Hsummary as Hsummary. injection Hmetrics as Hmetrics.
  destruct (lookup (lit "summary") s) as [x|]; [|discriminate].
  destruct (lookup (lit "metrics") s) as [m|]; [|discriminate].
  destruct (lookup (lit "taskAnalysis") fields) as [ta|]; [|discriminate].
  destruct (lookup (lit "productivityMetrics") fields) as [pm|]; [|discriminate].
  destruct (lookup (lit "workStyleAnalysis") fields) as [ws|]; [|discriminate].
  destruct (lookup (lit "recommendations") fields) as [recs|]; [|discriminate].
  unfold a_string, an_array.
  rewrite Hsummary, Hmetrics, Hta, Hpm, Hws, Hrecs. reflexivity.
Qed.

Lemma checked_report_validates (v : JSON) :
  checked_TaskReport v = true -> Groq.validateReportStructure v = true.
Proof.
  destruct v as [| | | | |fields]; try discriminate.
  unfold checked_TaskReport. intros H.
  repeat (apply andb_true_iff in H; let H' := fresh "H" in destruct H as [H H']).
  apply field_is_true in H. destruct H as [es [Hes Hshape]].
  destruct es as [| | | | |s]; try discriminate.
  apply andb_true_iff in Hshape. destruct Hshape as [Hsum Hmet].
  apply field_is_true in Hsum. destruct Hsum as [x [Hx Hxs]].
  apply field_is_true in Hmet. destruct Hmet as [m [Hm Hma]].
  apply field_is_true in H0. destruct H0 as [recs [Hrecs Hrecsa]].
  apply field_is_true in H1. destruct H1 as [ws [Hws Hwss]].
  apply field_is_true in H2. destruct H2 as [pm [Hpm Hpms]].
  apply field_is_true in H3. destruct H3 as [ta [Hta Htas]].
  unfold Groq.validateReportStructure.
  rewrite !has_field. simpl get. rewrite Hes. simpl get.
  rewrite Hx, Hm, Hta, Hpm, Hws, Hrecs.
  unfold a_string, an_array in *.
  rewrite Hxs, Hma, Htas, Hpms, Hwss, Hrecsa. reflexivity.
Qed.

Lemma fallback_report_checked (tasks : list Task.t) :
  checked_TaskReport (Groq.getFallbackReport tasks) = true.
Proof. reflexivity. Qed.

(** X4. Whatever the task set and whatever the hosted model does,
    [generateReport] returns, without throwing, an object of the shape
    [validateReportStructure] checks. *)
Theorem report_always_has_the_checked_shape :
  forall (rt : Runtime) (this : GroqService) (tasks : list Task.t)
         (insights : JSON) (user : User.t) (log : Log),
  exists report log',
    Groq.generateReport rt this tasks insights user log = (Normal report, log')
    /\ checked_TaskReport report = true.
Proof.
  intros rt this [|t ts] insights user log.
  - eexists. eexists. split; reflexivity.
  - pose proof (generateReport_runs rt this t ts insights user log) as H.
    cbv zeta in H. eexists. eexists. split; [exact H|].
    unfold usable_report.
    destruct (answer (model this) _) as [response|e]; [|apply fallback_report_checked].
    destruct (Groq.jsonMatch _) as [found|]; [|apply fallback_report_checked].
    destruct (JSON_parse rt _) as [v|e]; [|apply fallback_report_checked].
    destruct (Groq.validateReportStructure v) eqn:Hv; [|apply fallback_report_checked].
    apply validated_report_shape, Hv.
Qed.

(** X5. The two validators accept exactly the shapes above, and no more
    is checked: whatever the elements of a group's [tasks] array are, strings
    or not, the Insights pass [validateInsightsStructure], although Insights
    whose tasks are not all strings do not meet the declared interface. *)
Theorem validators_accept_exactly_the_checked_shapes :
  (forall v, Groq.validateInsightsStructure v = Normal true
             <-> checked_TaskInsights v = true)
  /\ (forall v, Groq.validateReportStructure v = true <-> checked_TaskReport v = true)
  /\ (forall tasks,
        Groq.validateInsightsStructure (one_group tasks) = Normal true
        /\ is_TaskInsights (one_group tasks) = all_strings tasks).
Proof.
  split; [|split].
  - intros v. split; [apply validated_insights_shape | apply checked_insights_validate].
  - intros v. split; [apply validated_report_shape | apply checked_report_validates].
  - intros tasks. split; [reflexivity|].
    unfold is_TaskInsights, one_group, field_is. simpl.
    rewrite !andb_true_r. reflexivity.
Qed.

End Validators.

(* ================================================================== *)
(** ** What the schema and the creation of a task read of a payload *)
(* ================================================================== *)

Section Picked.

Import Spec Props.

Lemma str_eqb_eq (a b : jsstring) : str_eqb a b = true <-> a = b.
Proof.
  revert b. induction a as [|x a IH]; intros [|y b]; simpl; split;
    try discriminate; try reflexivity.
  - intros H. apply andb_true_iff in H. destruct H as [Hxy Hab].
    apply N.eqb_eq in Hxy. apply IH in Hab. congruence.
  - intros H. injection H as -> ->. rewrite N.eqb_refl. apply IH. reflexivity.
Qed.

(** Under a picked key, the picked fields hold what the payload holds. *)
Lemma lookup_pick (k : jsstring) (fields : list (jsstring * JSON)) :
  existsb (str_eqb k) picked_keys = true ->
  lookup k (pick fields) = lookup k fields.
Proof.
  intros Hk. unfold pick.
  set (keep := fun kv : jsstring * JSON => existsb (str_eqb (fst kv)) picked_keys).
  induction fields as [|[k' v] r IH]; [reflexivity|].
  cbn [filter]. destruct (keep (k', v)) eqn:Hk'.
  - cbn [lookup]. destruct (str_eqb k k'); [reflexivity | exact IH].
  - cbn [lookup]. destruct (str_eqb k k') eqn:E; [|exact IH].
    apply str_eqb_eq in E. subst k'. unfold keep in Hk'. cbn [fst] in Hk'.
    congruence.
Qed.

Lemma parse_reads_picked (rt : Runtime) (fields : list (jsstring * JSON)) :
  Schema.insertTaskSchema_parse rt (JObject (pick fields))
  = Schema.insertTaskSchema_parse rt (JObject fields).
Proof.
  unfold Schema.insertTaskSchema_parse.
  rewrite !lookup_pick by reflexivity. reflexivity.
Qed.

(** X6. [insertTaskSchema.parse] accepts exactly the well-formed payloads,
    a title that is the empty string included, and reads nothing but the four
    picked keys: every other key of the payload is without effect. *)
Theorem schema_accepts_well_formed_and_reads_picked_keys :
  forall (rt : Runtime),
    (forall b, well_formed b = true
               <-> exists validated, Schema.insertTaskSchema_parse rt b = Normal validated)
    /\ (forall fields,
          Schema.insertTaskSchema_parse rt (JObject (pick fields))
          = Schema.insertTaskSchema_parse rt (JObject fields))
    /\ Forall
         (fun priority =>
            Schema.insertTaskSchema_parse rt
              (JObject [ (lit "title", JString []); (lit "priority", JString priority) ])
            = Normal {| InsertTask.title := [];
                        InsertTask.description := Undefined;
                        InsertTask.priority := priority;
                        InsertTask.dueDate := Undefined |})
         Schema.priorities.
Proof.
  intros rt. split; [|split].
  - intros b. split.
    + intros H. destruct (well_formed_parses rt b H) as [v [Hv _]]. exists v. exact Hv.
    + intros [v Hv]. destruct (well_formed b) eqn:E; [reflexivity|].
      destruct (malformed_throws rt b E) as [e [He _]]. congruence.
  - apply parse_reads_picked.
  - repeat constructor.
Qed.

(** X7. [POST /api/tasks] reads of a request the user of the session and
    the four picked keys of the body, and nothing else: an [id], a [userId],
    a [completed] flag or tags in the body, and the [:id] of the path, change
    neither the answer nor the state. *)
Theorem post_tasks_reads_picked_keys_only :
  forall (Store : Type) (storage : IStorage Store) (rt : Runtime)
         (service : GroqService) (u : User.t) (pid pid' : jsstring)
         (fields : list (jsstring * JSON)) (w : World Store),
    Routes.registerRoutes storage rt service POST_api_tasks
      {| user := Some u; params_id := pid; body := JObject fields |} w
    = Routes.registerRoutes storage rt service POST_api_tasks
        {| user := Some u; params_id := pid'; body := JObject (pick fields) |} w.
Proof.
  intros. unfold Routes.registerRoutes.
  rewrite !post_tasks_runs, parse_reads_picked. reflexivity.
Qed.

End Picked.

(* ================================================================== *)
(** ** Tags and identifiers as text *)
(* ================================================================== *)

Section Texts.

Import Spec Props.

Lemma split_fragments_lack_separator (sep : code_unit) (s : jsstring) :
  Forall (fun fragment => ~ In sep fragment) (split sep s).
Proof.
  induction s as [|c r IH]; simpl.
  - constructor; [intros [] | constructor].
  - destruct (N.eqb_spec c sep) as [->|Hne].
    + constructor; [intros [] | exact IH].
    + destruct (split sep r) as [|h t].
      * constructor; [|constructor]. intros [H|[]]. congruence.
      * inversion IH as [|? ? Hh Ht]; subst.
        constructor; [|exact Ht]. intros [H|H]; [congruence | exact (Hh H)].
Qed.

Lemma trimStart_keeps_nothing_new (c : code_unit) (s : jsstring) :
  In c (trimStart s) -> In c s.
Proof.
  induction s as [|x r IH]; simpl; [tauto|].
  destruct (is_whitespace x); [right; apply IH; assumption | tauto].
Qed.

Lemma trim_keeps_nothing_new (c : code_unit) (s : jsstring) :
  In c (trim s) -> In c s.
Proof.
  unfold trim, trimEnd. intros H.
  apply in_rev, trimStart_keeps_nothing_new, in_rev in H.
  apply trimStart_keeps_nothing_new, H.
Qed.

Lemma kept_lack_commas (content : jsstring) :
  Forall (fun tag => ~ In 44%N tag) (kept content).
Proof.
  unfold kept. apply Forall_forall. intros tag Hin Hcomma.
  apply firstn_In, filter_In in Hin. destruct Hin as [Hin _].
  apply in_map_iff in Hin. destruct Hin as [fragment [<- Hfragment]].
  pose proof (split_fragments_lack_separator 44%N content) as H.
  rewrite Forall_forall in H.
  exact (H fragment Hfragment (trim_keeps_nothing_new _ _ Hcomma)).
Qed.

(** X8. No tag [generateTaskTags] returns contains a comma. *)
Theorem task_tags_contain_no_comma :
  forall (rt : Runtime) (this : GroqService) (title description : jsstring) (log : Log),
  exists tags log',
    Groq.generateTaskTags rt this title description log = (Normal tags, log')
    /\ Forall (fun tag => ~ In 44%N tag) tags.
Proof.
  intros rt this title description log.
  rewrite generateTaskTags_runs. eexists. eexists. split; [reflexivity|].
  assert (Hliteral : Forall (fun tag => ~ In 44%N tag) [lit "task"]).
  { constructor; [|constructor]. simpl. intros H.
    repeat (destruct H as [H|H]; [discriminate|]). exact H. }
  destruct (answer (model this) (tags_prompt title description)) as [response|e];
    [|exact Hliteral].
  pose proof (kept_lack_commas (Groq.content_of rt response)) as H.
  destruct (kept (Groq.content_of rt response)); [exact Hliteral | exact H].
Qed.

Lemma digits_numeral (d : Decimal.uint) (acc : Z) :
  digits 10 (Some acc) (lit (NilEmpty.string_of_uint d)) = Some (numeral acc d).
Proof.
  revert acc. induction d; intros acc; simpl; try reflexivity; apply IHd.
Qed.

Lemma numeral_of_uint_acc (d : Decimal.uint) (acc : positive) :
  numeral (Z.pos acc) d = Z.pos (Pos.of_uint_acc d acc).
Proof.
  revert acc. induction d; intros acc; cbn [numeral Pos.of_uint_acc];
    try reflexivity; rewrite <- IHd; f_equal; lia.
Qed.

Lemma numeral_of_uint (d : Decimal.uint) : numeral 0 d = Z.of_uint d.
Proof.
  unfold Z.of_uint.
  induction d; cbn [numeral Pos.of_uint Z.of_N]; try reflexivity; try exact IHd;
    apply (numeral_of_uint_acc d).
Qed.

Lemma parseInt_numeral (d : Decimal.uint) :
  d <> Decimal.Nil ->
  parseInt (lit (NilEmpty.string_of_uint d)) = Number_of_integer (Z.of_uint d)
  /\ parseInt (45%N :: lit (NilEmpty.string_of_uint d))
     = Number_of_integer (- Z.of_uint d).
Proof.
  intros Hd. rewrite <- numeral_of_uint.
  pose proof digits_numeral as Hdigits. unfold lit in Hdigits.
  destruct d as [|d|d|d|d|d|d|d|d|d|d]; [contradiction| ..];
    try (split; unfold parseInt; cbn -[Number_of_integer]; rewrite Hdigits;
         reflexivity).
  destruct d; split; unfold parseInt; cbn -[Number_of_integer];
    try reflexivity; rewrite Hdigits; reflexivity.
Qed.

(** An integer of at most 53 bits is a Number. *)
Lemma Number_of_integer_safe (z : Z) :
  (Z.abs z < 2 ^ 53)%Z -> Number_of_integer z = Int z.
Proof.
  intros Hz. unfold Number_of_integer.
  assert (Hlog : (Z.log2 (Z.abs z) < 53)%Z).
  { destruct (Z.eq_dec (Z.abs z) 0) as [-> | Hnz]; [reflexivity|].
    apply Z.log2_lt_pow2; lia. }
  destruct (Z.leb_spec (Z.log2 (Z.abs z) + 1 - 53) 0); [reflexivity | lia].
Qed.

(** The text of an integer of at most 53 bits is its decimal expansion. *)
Lemma Number_toString_safe (z : Z) :
  (Z.abs z < 2 ^ 53)%Z ->
  Number_toString z
  = if (z <? 0)%Z then 45%N :: decimal (- z) else decimal z.
Proof.
  intros Hz. unfold Number_toString, Number_toString_positive.
  rewrite (Number_of_integer_safe z Hz).
  destruct (Z.ltb_spec z 0).
  - destruct (Z.ltb_spec (- z) (2 ^ 53)); [reflexivity | lia].
  - destruct (Z.ltb_spec z (2 ^ 53)); [reflexivity | lia].
Qed.

(** The text of an integer of at most 53 bits reads back as that integer. *)
Lemma parseInt_Number_toString (z : Z) :
  (Z.abs z < 2 ^ 53)%Z -> parseInt (Number_toString z) = Int z.
Proof.
  intros Hz. rewrite (Number_toString_safe z Hz).
  rewrite <- (Number_of_integer_safe z Hz).
  unfold decimal.
  destruct z as [|p|p]; [reflexivity| |].
  - pose proof (DecimalZ.of_to (Z.pos p)) as Hback.
    cbn [Z.to_int Z.of_int] in Hback.
    destruct (@parseInt_numeral (Pos.to_uint p)
                (DecimalPos.Unsigned.to_uint_nonnil p)) as [Hread _].
    rewrite Hback in Hread. exact Hread.
  - pose proof (DecimalZ.of_to (Z.pos p)) as Hback.
    cbn [Z.to_int Z.of_int] in Hback.
    destruct (@parseInt_numeral (Pos.to_uint p)
                (DecimalPos.Unsigned.to_uint_nonnil p)) as [_ Hread].
    rewrite Hback in Hread. exact Hread.
Qed.

(** Beyond 53 bits [parseInt] rounds the integer it reads and the text of a
    Number has the shortest digits that read back as it; from 10^21 on the
    text is in exponent form, of which [parseInt] reads the digits before
    the [e] only. *)
Example texts_of_long_integers :
  parseInt (lit "9007199254740993") = Int 9007199254740992
  /\ Number_toString (10 ^ 21) = lit "1e+21"
  /\ parseInt (Number_toString (10 ^ 21)) = Int 1
  /\ Number_toString (2 ^ 60) = lit "1152921504606847000"
  /\ parseInt (Number_toString (2 ^ 60)) = Int (2 ^ 60).
Proof.
  repeat split; vm_compute; reflexivity.
Qed.

(** X9. The task list writes the identifier of a task into the path of a
    request as its decimal text, [`/api/tasks/${taskId}`], and [parseInt]
    reads the decimal text of an integer of at most 53 bits back: with that
    text as [:id] and the body of a toggle, [PATCH] asks the store to update
    exactly that task, and [DELETE] to delete it. *)
Theorem task_identifier_round_trip :
  forall (Store : Type) (storage : IStorage Store) (rt : Runtime)
         (service : GroqService) (u : User.t) (taskId : Z) (completed : bool)
         (w : World Store),
    (Z.abs taskId < 2 ^ 53)%Z ->
    parseInt (Number_toString taskId) = Int taskId
    /\ Routes.registerRoutes storage rt service PATCH_api_tasks_id
         {| user := Some u; params_id := Number_toString taskId;
            body := Client.toggle_body completed |} w
       = (let '(task, d) :=
            updateTask storage (Int taskId)
              (JObject [(lit "completed", JBool completed)]) (db w) in
          (Normal match task with
                  | Some task => json 200 (OneTask task)
                  | None => sendStatus 404
                  end,
           {| db := d; sent := sent w |}))
    /\ Routes.registerRoutes storage rt service DELETE_api_tasks_id
         {| user := Some u; params_id := Number_toString taskId; body := JNull |} w
       = (Normal (sendStatus 204),
          {| db := deleteTask storage (Int taskId) (db w); sent := sent w |}).
Proof.
  intros Store storage rt service u taskId completed w Hsafe.
  split; [apply parseInt_Number_toString, Hsafe|].
  unfold Routes.registerRoutes, Routes.patch_task, Routes.delete_task. run_M.
  cbn [user params_id body]. rewrite (parseInt_Number_toString taskId Hsafe).
  split; [|reflexivity].
  unfold Client.toggle_body.
  destruct (updateTask storage (Int taskId) _ (db w)) as [[task|] d]; reflexivity.
Qed.

(** Alice toggles and deletes Bob's task 7 by its text. *)
Lemma task_identifier_round_trip_witness :
  (Z.abs 7 < 2 ^ 53)%Z
  /\ parseInt (Number_toString 7) = Int 7
  /\ Fixtures.run Fixtures.unreachable PATCH_api_tasks_id
       {| user := Some Fixtures.alice; params_id := Number_toString 7;
          body := Client.toggle_body true |}
       (Fixtures.world Fixtures.bobs_db)
     = (let '(task, d) :=
          DatabaseStorage.updateTask (Int 7)
            (JObject [(lit "completed", JBool true)]) Fixtures.bobs_db in
        (Normal match task with
                | Some task => json 200 (OneTask task)
                | None => sendStatus 404
                end,
         {| db := d; sent := [] |}))
  /\ Fixtures.run Fixtures.unreachable DELETE_api_tasks_id
       {| user := Some Fixtures.alice; params_id := Number_toString 7;
          body := JNull |}
       (Fixtures.world Fixtures.bobs_db)
     = (Normal (sendStatus 204),
        {| db := DatabaseStorage.deleteTask (Int 7) Fixtures.bobs_db;
           sent := [] |}).
Proof.
  split; [reflexivity|].
  apply (@task_identifier_round_trip _ DatabaseStorage.storage Fixtures.runtime
           Fixtures.unreachable Fixtures.alice 7%Z true
           (Fixtures.world Fixtures.bobs_db)).
  reflexivity.
Defined.

End Texts.

(* ================================================================== *)
(** ** The text taken out of a reply *)
(* ================================================================== *)

Section Extraction.

Import Spec Props.

Lemma startsWith_spec (p s : jsstring) :
  startsWith p s = true -> s = p ++ skipn (List.length p) s.
Proof.
  revert s. induction p as [|x p IH]; intros [|y s]; simpl; try discriminate;
    try reflexivity.
  intros H. apply andb_true_iff in H. destruct H as [Hxy Hps].
  apply N.eqb_eq in Hxy. subst y. f_equal. apply IH, Hps.
Qed.

(** [cut] splits the text around an occurrence of the pattern. *)
Lemma cut_spec (p s before after : jsstring) :
  cut p s = Some (before, after) -> s = before ++ p ++ after.
Proof.
  revert before after. induction s as [|c r IH]; intros before after.
  - simpl. destruct (startsWith p []) eqn:E; [|discriminate].
    intros H. injection H as <- <-. apply startsWith_spec in E. exact E.
  - cbn [cut]. destruct (startsWith p (c :: r)) eqn:E.
    + intros H. injection H as <- <-. apply startsWith_spec in E. exact E.
    + destruct (cut p r) as [[b a]|]; [|discriminate].
      intros H. injection H as <- <-. simpl. f_equal. apply IH. reflexivity.
Qed.

Lemma cut_unit (c : code_unit) (s : jsstring) :
  match cut [c] s with
  | Some (before, after) =>
      s = before ++ c :: after /\ ~ In c before
      /\ count_occ N.eq_dec s c = S (count_occ N.eq_dec after c)
  | None => ~ In c s /\ count_occ N.eq_dec s c = 0%nat
  end.
Proof.
  induction s as [|x r IH].
  - simpl. split; [tauto | reflexivity].
  - cbn [cut startsWith]. destruct (N.eqb_spec c x) as [<-|Hne].
    + cbn [andb]. destruct r; simpl; destruct (N.eq_dec c c); try congruence;
        repeat split; auto.
    + cbn [andb]. destruct (cut [c] r) as [[b a]|].
      * destruct IH as [Hr [Hb Hcount]]. subst r. repeat split.
        -- intros [H|H]; [congruence | exact (Hb H)].
        -- rewrite count_occ_cons_neq by congruence. exact Hcount.
      * destruct IH as [Hr Hcount]. split.
        -- intros [H|H]; [congruence | exact (Hr H)].
        -- rewrite count_occ_cons_neq by congruence. exact Hcount.
Qed.

Lemma before_last_spec (c : code_unit) (s inner : jsstring) :
  before_last c s = Some inner -> exists tail, s = inner ++ c :: tail.
Proof.
  unfold before_last. pose proof (cut_unit c (rev s)) as H.
  destruct (cut [c] (rev s)) as [[x front]|]; [|discriminate].
  destruct H as [Hs _]. intros Hinner. injection Hinner as <-.
  exists (rev x). rewrite <- (rev_involutive s), Hs, rev_app_distr. simpl.
  rewrite <- app_assoc. reflexivity.
Qed.

Lemma before_last_finds (c : code_unit) (s : jsstring) :
  In c s -> before_last c s <> None.
Proof.
  unfold before_last. pose proof (cut_unit c (rev s)) as H.
  destruct (cut [c] (rev s)) as [[x front]|]; [discriminate|].
  intros Hin. destruct H as [H _]. exfalso. apply H, in_rev.
  rewrite rev_involutive. exact Hin.
Qed.

Lemma first_occurrence (x : code_unit) (a' r a t : jsstring) :
  ~ In x a' -> a' ++ x :: r = a ++ x :: t -> exists a'', r = a'' ++ t.
Proof.
  revert a. induction a' as [|z a1 IH]; intros [|y a0] Hx H; simpl in H.
  - injection H as ->. exists []. reflexivity.
  - injection H as _ ->. exists (a0 ++ [x]). rewrite <- app_assoc. reflexivity.
  - injection H as -> _. exfalso. apply Hx. left. reflexivity.
  - injection H as _ H. apply (IH a0); [|exact H].
    intros Hin. apply Hx. right. exact Hin.
Qed.

Lemma match_inline_backticks (content : jsstring) :
  match_inline content = None <-> (backticks content < 2)%nat.
Proof.
  unfold match_inline, backticks.
  pose proof (cut_unit backtick content) as H.
  destruct (cut [backtick] content) as [[a rest]|].
  - destruct H as [_ [_ Hcount]]. rewrite Hcount.
    pose proof (cut_unit backtick rest) as H'.
    destruct (cut [backtick] rest) as [[inner tail]|].
    + destruct H' as [_ [_ Hrest]]. rewrite Hrest.
      split; [discriminate | lia].
    + destruct H' as [_ Hrest]. rewrite Hrest. split; [lia | reflexivity].
  - destruct H as [_ Hcount]. rewrite Hcount. split; [lia | reflexivity].
Qed.

Lemma match_fenced_backticks (content : jsstring) :
  match_fenced content <> None -> (2 <= backticks content)%nat.
Proof.
  unfold match_fenced, backticks.
  destruct (cut fence_open content) as [[a rest]|] eqn:E; [|congruence].
  intros _. apply cut_spec in E. rewrite E.
  rewrite !count_occ_app.
  change (count_occ N.eq_dec fence_open backtick) with 3%nat.
  lia.
Qed.

Lemma match_braces_pair (content : jsstring) :
  match_braces content = None <-> ~ brace_pair content.
Proof.
  unfold match_braces, brace_pair.
  pose proof (cut_unit lbrace content) as H.
  destruct (cut [lbrace] content) as [[a' rest]|].
  - destruct H as [Hcontent [Hfirst _]].
    destruct (before_last rbrace rest) as [inner|] eqn:E.
    + split; [discriminate|]. intros Hno. exfalso. apply Hno.
      apply before_last_spec in E. destruct E as [tail ->].
      exists a', inner, tail. exact Hcontent.
    + split; [|reflexivity]. intros _ [a [b [c Hpair]]].
      rewrite Hcontent in Hpair.
      destruct (@first_occurrence lbrace a' rest a (b ++ rbrace :: c) Hfirst Hpair)
        as [a'' ->].
      apply (@before_last_finds rbrace (a'' ++ b ++ rbrace :: c)); [|exact E].
      apply in_or_app. right. apply in_or_app. right. left. reflexivity.
  - destruct H as [Hno _]. split; [|reflexivity].
    intros _ [a [b [c Hpair]]]. apply Hno. rewrite Hpair.
    apply in_or_app. right. left. reflexivity.
Qed.

(** The text the three patterns extract is never empty and occurs in the
    reply. *)
Lemma jsonMatch_text_occurs :
  forall content : jsstring,
    match Groq.jsonMatch content with
    | Some found =>
        occurs_in (group_or_match found) content /\ group_or_match found <> []
    | None => True
    end.
Proof.
  intros content. unfold Groq.jsonMatch, orElse, occurs_in.
  destruct (match_fenced content) as [m|] eqn:Ef.
  - unfold match_fenced in Ef.
    destruct (cut fence_open content) as [[a rest]|] eqn:E1; [|discriminate].
    destruct (cut fence_close rest) as [[inner tail]|] eqn:E2; [|discriminate].
    injection Ef as <-. apply cut_spec in E1. apply cut_spec in E2. subst.
    unfold group_or_match. cbn [group1 matched].
    destruct inner as [|c g].
    + split; [|discriminate]. exists a, tail. repeat rewrite <- app_assoc; reflexivity.
    + split; [|discriminate]. exists (a ++ fence_open), (fence_close ++ tail).
      repeat rewrite <- app_assoc; reflexivity.
  - destruct (match_inline content) as [m|] eqn:Ei.
    + unfold match_inline in Ei.
      destruct (cut [backtick] content) as [[a rest]|] eqn:E1; [|discriminate].
      destruct (cut [backtick] rest) as [[inner tail]|] eqn:E2; [|discriminate].
      injection Ei as <-. apply cut_spec in E1. apply cut_spec in E2. subst.
      unfold group_or_match. cbn [group1 matched].
      destruct inner as [|c g].
      * split; [|discriminate]. exists a, tail. reflexivity.
      * split; [|discriminate]. exists (a ++ [backtick]), ([backtick] ++ tail).
        repeat rewrite <- app_assoc; reflexivity.
    + destruct (match_braces content) as [m|] eqn:Eb; [|exact I].
      unfold match_braces in Eb.
      destruct (cut [lbrace] content) as [[a rest]|] eqn:E1; [|discriminate].
      destruct (before_last rbrace rest) as [inner|] eqn:E2; [|discriminate].
      injection Eb as <-. apply cut_spec in E1. apply before_last_spec in E2.
      destruct E2 as [tail ->]. subst.
      unfold group_or_match. cbn [group1 matched].
      split; [|discriminate]. exists a, tail.
      simpl. repeat rewrite <- app_assoc; reflexivity.
Qed.

Lemma occurs_in_trim (text content : jsstring) :
  occurs_in text content -> occurs_in (trim text) content.
Proof.
  intros [before [after Hcontent]]. unfold trim.
  destruct (trimStart_prefix text) as [w1 [H1 _]].
  destruct (trimEnd_suffix (trimStart text)) as [w2 [H2 _]].
  exists (before ++ w1), (w2 ++ after).
  rewrite Hcontent. rewrite H1 at 1. rewrite H2 at 1.
  repeat rewrite <- app_assoc. reflexivity.
Qed.

(** X10. [generateTaskInsights] hands [JSON.parse] only a text that is not
    empty and occurs in the reply of the model; [generateReport] trims the
    text first, so what it hands over occurs in the reply and neither begins
    nor ends with white space, but may be empty. Put in the place of
    [JSON.parse] any function that agrees with it on those texts, and
    neither function returns anything else. *)
Theorem parsed_text_occurs_in_the_reply :
  forall (rt : Runtime) (parse : jsstring -> Completion JSON)
         (this : GroqService) (tasks : list Task.t) (insights : JSON)
         (user : User.t) (log : Log),
    (forall response text,
        answer (model this) (insights_prompt rt tasks) = Normal response ->
        occurs_in text (Groq.content_of rt response) ->
        text <> [] ->
        parse text = JSON_parse rt text) ->
    (forall response text,
        answer (model this) (report_prompt rt tasks insights user)
          = Normal response ->
        occurs_in text (Groq.content_of rt response) ->
        starts_clean text -> starts_clean (rev text) ->
        parse text = JSON_parse rt text) ->
    Groq.generateTaskInsights (with_parse rt parse) this tasks log
      = Groq.generateTaskInsights rt this tasks log
    /\ Groq.generateReport (with_parse rt parse) this tasks insights user log
      = Groq.generateReport rt this tasks insights user log.
Proof.
  intros rt parse this tasks insights user log Hinsights Hreport.
  destruct tasks as [|t ts]; [split; reflexivity|].
  split.
  - rewrite (@generateTaskInsights_runs (with_parse rt parse) this t ts log).
    rewrite (@generateTaskInsights_runs rt this t ts log).
    cbv zeta. f_equal. f_equal.
    change (insights_prompt (with_parse rt parse) (t :: ts))
      with (insights_prompt rt (t :: ts)).
    unfold usable_insights.
    destruct (answer (model this) (insights_prompt rt (t :: ts)))
      as [response|e] eqn:Hanswer; [|reflexivity].
    change (Groq.content_of (with_parse rt parse) response)
      with (Groq.content_of rt response).
    pose proof (jsonMatch_text_occurs (Groq.content_of rt response)) as Hfound.
    destruct (Groq.jsonMatch (Groq.content_of rt response)) as [found|];
      [|reflexivity].
    destruct Hfound as [Hoccurs Hne].
    change (JSON_parse (with_parse rt parse) (group_or_match found))
      with (parse (group_or_match found)).
    rewrite (Hinsights response _ eq_refl Hoccurs Hne). reflexivity.
  - rewrite (@generateReport_runs (with_parse rt parse) this t ts insights user log).
    rewrite (@generateReport_runs rt this t ts insights user log).
    cbv zeta. f_equal. f_equal.
    change (report_prompt (with_parse rt parse) (t :: ts) insights user)
      with (report_prompt rt (t :: ts) insights user).
    unfold usable_report.
    destruct (answer (model this) (report_prompt rt (t :: ts) insights user))
      as [response|e] eqn:Hanswer; [|reflexivity].
    change (Groq.content_of (with_parse rt parse) response)
      with (Groq.content_of rt response).
    pose proof (jsonMatch_text_occurs (Groq.content_of rt response)) as Hfound.
    destruct (Groq.jsonMatch (Groq.content_of rt response)) as [found|];
      [|reflexivity].
    destruct Hfound as [Hoccurs _].
    change (JSON_parse (with_parse rt parse) (trim (group_or_match found)))
      with (parse (trim (group_or_match found))).
    rewrite (Hreport response _ eq_refl (occurs_in_trim Hoccurs)
               (trim_starts_clean _) (trim_ends_clean _)).
    reflexivity.
Qed.

(** The reply [{}] to Bob's one task: a [JSON.parse] that knows the empty
    object only serves as well as one that also knows other texts. *)
Lemma parsed_text_occurs_in_the_reply_witness :
  Groq.generateTaskInsights (with_parse Fixtures.runtime parse_empty_object)
    (Fixtures.replying (lit "{}")) [Fixtures.bobs_task] []
  = Groq.generateTaskInsights Fixtures.runtime
      (Fixtures.replying (lit "{}")) [Fixtures.bobs_task] []
  /\ Groq.generateReport (with_parse Fixtures.runtime parse_empty_object)
       (Fixtures.replying (lit "{}")) [Fixtures.bobs_task]
       Fixtures.some_insights Fixtures.bob []
     = Groq.generateReport Fixtures.runtime
         (Fixtures.replying (lit "{}")) [Fixtures.bobs_task]
         Fixtures.some_insights Fixtures.bob [].
Proof.
  assert (Hagree : forall text,
             occurs_in text (lit "{}") ->
             parse_empty_object text = JSON_parse Fixtures.runtime text).
  { intros text [before [after Hcontent]].
    unfold parse_empty_object, Fixtures.runtime, JSON_parse.
    destruct (str_eqb text (lit "{}")); [reflexivity|].
    destruct (str_eqb text Fixtures.some_insights_text) eqn:Hlong; [|reflexivity].
    apply str_eqb_eq in Hlong. subst text.
    apply (f_equal (@List.length code_unit)) in Hcontent.
    repeat rewrite length_app in Hcontent.
    assert (Hlength : (2 < List.length Fixtures.some_insights_text)%nat)
      by (vm_compute; lia).
    change (List.length (lit "{}")) with 2%nat in Hcontent. lia. }
  apply (@parsed_text_occurs_in_the_reply Fixtures.runtime parse_empty_object
           (Fixtures.replying (lit "{}")) [Fixtures.bobs_task]
           Fixtures.some_insights Fixtures.bob []).
  - intros response text Hanswer Hoccurs _.
    injection Hanswer as <-. apply Hagree, Hoccurs.
  - intros response text Hanswer Hoccurs _ _.
    injection Hanswer as <-. apply Hagree, Hoccurs.
Defined.

(** For the reply of a backtick, a space and a backtick, [generateReport]
    hands [JSON.parse] the empty text: a [JSON.parse] that reads a report out
    of the empty text alone has [generateReport] return that report. *)
Example report_parses_the_empty_text :
  let report := Groq.getFallbackReport [] in
  Groq.generateReport (with_parse Fixtures.runtime (parse_empty_text report))
    (Fixtures.replying (lit "` `")) [Fixtures.bobs_task]
    Fixtures.some_insights Fixtures.bob []
  = (Normal report,
     [report_prompt Fixtures.runtime [Fixtures.bobs_task]
        Fixtures.some_insights Fixtures.bob])
  /\ Groq.generateTaskInsights
       (with_parse Fixtures.runtime (parse_empty_text report))
       (Fixtures.replying (lit "` `")) [Fixtures.bobs_task] []
     = (Normal (Groq.getFallbackInsights [Fixtures.bobs_task]),
        [insights_prompt Fixtures.runtime [Fixtures.bobs_task]]).
Proof.
  split; vm_compute; reflexivity.
Qed.

(** X11. A reply yields no text to parse exactly when it has fewer than two
    backticks and no opening brace with a closing brace after it. With fewer
    than two backticks the text is what the brace pattern matches; with two
    or more, a backtick pattern decides and the brace pattern is not
    consulted, so JSON that stands outside the backticks is not parsed. *)
Theorem reply_with_nothing_to_parse :
  forall content : jsstring,
    (Groq.jsonMatch content = None
     <-> (backticks content < 2)%nat /\ ~ brace_pair content)
    /\ ((backticks content < 2)%nat ->
        Groq.jsonMatch content = match_braces content)
    /\ ((2 <= backticks content)%nat ->
        exists found, Groq.jsonMatch content = Some found /\ group1 found <> None).
Proof.
  intros content.
  pose proof (match_inline_backticks content) as Hi.
  pose proof (match_fenced_backticks content) as Hf.
  pose proof (match_braces_pair content) as Hb.
  assert (Hfew : (backticks content < 2)%nat ->
                 Groq.jsonMatch content = match_braces content).
  { intros Hlt. unfold Groq.jsonMatch, orElse.
    destruct (match_fenced content); [exfalso; assert (2 <= backticks content)%nat
      by (apply Hf; discriminate); lia|].
    rewrite (proj2 Hi Hlt). reflexivity. }
  split; [|split].
  - split.
    + intros Hnone.
      assert (Hlt : (backticks content < 2)%nat).
      { apply Hi. unfold Groq.jsonMatch, orElse in Hnone.
        destruct (match_fenced content); [discriminate|].
        destruct (match_inline content); [discriminate | reflexivity]. }
      split; [exact Hlt|]. apply Hb. rewrite <- Hfew; assumption.
    + intros [Hlt Hno]. rewrite (Hfew Hlt). apply Hb, Hno.
  - exact Hfew.
  - intros Hge. unfold Groq.jsonMatch, orElse.
    destruct (match_fenced content) as [m|] eqn:Ef.
    + exists m. split; [reflexivity|]. unfold match_fenced in Ef.
      destruct (cut fence_open content) as [[a rest]|]; [|discriminate].
      destruct (cut fence_close rest) as [[inner tail]|]; [|discriminate].
      injection Ef as <-. discriminate.
    + destruct (match_inline content) as [m|] eqn:Ei.
      * exists m. split; [reflexivity|]. unfold match_inline in Ei.
        destruct (cut [backtick] content) as [[a rest]|]; [|discriminate].
        destruct (cut [backtick] rest) as [[inner tail]|]; [|discriminate].
        injection Ei as <-. discriminate.
      * exfalso. assert (backticks content < 2)%nat by (apply Hi; reflexivity). lia.
Qed.

End Extraction.

(* ================================================================== *)
(** ** What a request costs and what it leaves alone *)
(* ================================================================== *)

Section Costs.

Import Spec Props.

Variable Store : Type.
Variable storage : IStorage Store.
Variable rt : Runtime.
Variable service : GroqService.

Lemma usable_report_is_truthy (reply : Completion MessageContent) (fallback : JSON) :
  truthy fallback = true ->
  truthy match usable_report rt reply with
         | Some parsed => parsed
         | None => fallback
         end = true.
Proof.
  intros Hfallback. unfold usable_report.
  destruct reply as [response|e]; [|exact Hfallback].
  destruct (Groq.jsonMatch _) as [found|]; [|exact Hfallback].
  destruct (JSON_parse rt _) as [v|e]; [|exact Hfallback].
  destruct (Groq.validateReportStructure v) eqn:Hv; [|exact Hfallback].
  apply validated_report_is_truthy, Hv.
Qed.

(** [GET /api/report] for a user with tasks: two prompts are sent, first
    the one for the Insights, then the one for the report, which quotes those
    Insights; the store is left as it is. *)
Lemma get_report_runs (u : User.t) (pid : jsstring) (b : JSON) (w : World Store)
    (t : Task.t) (ts : list Task.t) :
  getTasksByUserId storage (User.id u) (db w) = t :: ts ->
  exists insights report,
    Routes.get_report storage rt service
      {| user := Some u; params_id := pid; body := b |} w
    = (Normal (json 200 (Data report)),
       {| db := db w;
          sent := (sent w ++ [insights_prompt rt (t :: ts)])
                    ++ [report_prompt rt (t :: ts) insights u] |}).
Proof.
  intros Htasks. unfold Routes.get_report. run_M. simpl.
  rewrite Htasks. change (List.length (t :: ts) =? 0)%nat with false.
  cbv beta iota.
  pose proof (generateTaskInsights_runs rt service t ts (sent w)) as HI.
  cbv zeta in HI. rewrite HI. cbn [sent db].
  set (insights := match usable_insights rt _ with Some p => p | None => _ end).
  pose proof (generateReport_runs rt service t ts insights u
                (sent w ++ [insights_prompt rt (t :: ts)])) as HR.
  cbv zeta in HR. rewrite HR.
  rewrite usable_report_is_truthy by reflexivity.
  exists insights. eexists. reflexivity.
Qed.

(** X12. The external calls an authenticated request costs: none for
    listing, updating and deleting tasks; one for creating a task, and none
    when the payload is refused; one for Insights and two for a report, and
    none when the user has no task. The routes that list tasks or produce
    Insights or a report leave the store as it is. *)
Theorem requests_cost_model_calls :
  forall (route : Route) (u : User.t) (pid : jsstring) (b : JSON) (w : World Store),
    let after :=
      snd (Routes.registerRoutes storage rt service route
             {| user := Some u; params_id := pid; body := b |} w) in
    List.length (sent after)
    = (List.length (sent w) + model_calls storage rt route u b w)%nat
    /\ if reads_only route then db after = db w else True.
Proof.
  intros route u pid b w. cbv zeta.
  destruct route; unfold Routes.registerRoutes, model_calls, reads_only.
  - simpl. split; [lia | reflexivity].
  - rewrite post_tasks_runs. split; [|exact I].
    destruct (well_formed b) eqn:Hb.
    + destruct (well_formed_parses rt b Hb) as [v [Hv _]]. rewrite Hv. cbv zeta.
      rewrite generateTaskTags_runs. cbn [snd sent].
      rewrite length_app. reflexivity.
    + destruct (malformed_throws rt b Hb) as [e [He _]]. rewrite He.
      cbn [snd]. lia.
  - unfold Routes.patch_task. run_M. cbn [user params_id body].
    split; [|exact I].
    destruct (updateTask storage (parseInt pid) b (db w)) as [[task|] d];
      cbn [snd sent]; lia.
  - unfold Routes.delete_task. run_M. cbn [user snd sent]. split; [lia | exact I].
  - unfold Routes.get_insights. run_M. cbn [user].
    destruct (getTasksByUserId storage (User.id u) (db w)) as [|t ts].
    + cbn. split; [lia | reflexivity].
    + pose proof (generateTaskInsights_runs rt service t ts (sent w)) as HI.
      cbv zeta in HI. rewrite HI. cbn [snd sent db List.length Nat.eqb].
      rewrite length_app. split; reflexivity.
  - unfold Routes.post_insights_refresh. run_M. cbn [user].
    destruct (getTasksByUserId storage (User.id u) (db w)) as [|t ts].
    + cbn. split; [lia | reflexivity].
    + pose proof (generateTaskInsights_runs rt service t ts (sent w)) as HI.
      cbv zeta in HI. rewrite HI. cbn [snd sent db List.length Nat.eqb].
      rewrite length_app. split; reflexivity.
  - destruct (getTasksByUserId storage (User.id u) (db w)) as [|t ts] eqn:Htasks.
    + unfold Routes.get_report. run_M. cbn [user]. rewrite Htasks.
      cbn. split; [lia | reflexivity].
    + destruct (get_report_runs u pid b w Htasks) as [insights [report Hrun]].
      rewrite Hrun. cbn [snd sent db List.length Nat.eqb].
      rewrite !length_app. cbn [List.length]. split; [lia | reflexivity].
Qed.

End Costs.

(* ================================================================== *)
(** ** The download of a report *)
(* ================================================================== *)

Section Download.

Import Spec Props.

Variable Number_text : float -> jsstring.

Lemma bullets_of_strings (items : list JSON) :
  all_strings items = true ->
  exists lines, Client.bullets Number_text items = Normal lines.
Proof.
  induction items as [|x r IH]; simpl; [eexists; reflexivity|].
  intros H. apply andb_true_iff in H. destruct H as [Hx Hr].
  destruct x; try discriminate. destruct (IH Hr) as [lines ->].
  eexists. reflexivity.
Qed.

Lemma bullet_list_of_strings (v : JSON) :
  string_array v = true ->
  exists text, Client.bullet_list Number_text (Some v) = Normal text.
Proof.
  destruct v as [| | | |items|]; try discriminate. simpl.
  intros H. destruct (bullets_of_strings items H) as [lines ->].
  eexists. reflexivity.
Qed.

(** The text of the file, for a report that meets the contract. *)
Lemma report_content_of_report (report : JSON) :
  is_TaskReport report = true ->
  exists rest,
    Client.report_content Number_text report = Normal (report_heading ++ rest).
Proof.
  destruct report as [| | | | |fields]; try discriminate.
  unfold is_TaskReport. intros H.
  repeat (apply andb_true_iff in H; let H' := fresh "H" in destruct H as [H H']).
  apply field_is_true in H. destruct H as [es [Hes Hshape]].
  destruct es as [| | | | |s]; try discriminate.
  apply andb_true_iff in Hshape. destruct Hshape as [Hsum Hmet].
  apply field_is_true in Hsum. destruct Hsum as [x [Hx Hxs]].
  apply field_is_true in Hmet. destruct Hmet as [m [Hm Hma]].
  apply field_is_true in H0. destruct H0 as [recs [Hrecs Hrecsa]].
  apply field_is_true in H1. destruct H1 as [ws [Hws Hwss]].
  apply field_is_true in H2. destruct H2 as [pm [Hpm Hpms]].
  apply field_is_true in H3. destruct H3 as [ta [Hta Htas]].
  destruct x; try discriminate. destruct ws; try discriminate.
  destruct pm; try discriminate. destruct ta; try discriminate.
  destruct (bullet_list_of_strings m Hma) as [metrics Hmetrics].
  destruct (bullet_list_of_strings recs Hrecsa) as [recommendations Hrecommendations].
  unfold Client.report_content. cbn [get]. rewrite Hes. cbn [get].
  rewrite Hx, Hm, Hta, Hpm, Hws, Hrecs. cbn [Client.interpolate Client.ToString].
  rewrite Hmetrics, Hrecommendations.
  eexists. unfold Props.report_heading. reflexivity.
Qed.

(** X13. The report panel, for a report that meets the contract, hands the
    browser one file named after the day, whose text begins with the heading
    of the report, announces the success, and ends not downloading. With no
    data it hands over nothing and announces the failure with the message "No
    report data received from server", and ends not downloading as well. *)
Theorem report_download :
  forall (today : jsstring) (report : JSON) (page : Client.Page),
    is_TaskReport report = true ->
    (exists rest,
       Client.generateAndDownload Number_text today (Some report) page
       = (Normal tt,
          {| Client.isDownloading := false;
             Client.downloads :=
               Client.downloads page
                 ++ [(lit "task-report-" ++ today ++ lit ".md", report_heading ++ rest)];
             Client.toasts :=
               Client.toasts page
                 ++ [ {| Client.toast_title := lit "Report Generated";
                         Client.toast_description :=
                           lit "Your report has been generated and downloaded successfully.";
                         Client.destructive := false |} ] |}))
    /\ Client.generateAndDownload Number_text today None page
       = (Normal tt,
          {| Client.isDownloading := false;
             Client.downloads := Client.downloads page;
             Client.toasts :=
               Client.toasts page
                 ++ [ {| Client.toast_title := lit "Report Generation Failed";
                         Client.toast_description :=
                           lit "No report data received from server";
                         Client.destructive := true |} ] |}).
Proof.
  intros today report page Hreport. split; [|reflexivity].
  destruct (report_content_of_report report Hreport) as [rest Hcontent].
  exists rest.
  assert (Htruthy : truthy report = true)
    by (destruct report; try discriminate; reflexivity).
  unfold Client.generateAndDownload. run_M.
  unfold Client.setIsDownloading, Client.download, Client.toast.
  rewrite Htruthy, Hcontent. reflexivity.
Qed.

(** X14. What [validateReportStructure] leaves unchecked reaches the
    report panel: a report whose first recommendation is an object with a
    [toString] key passes the validation, and the panel, on that report,
    hands the browser nothing and announces a failure. *)
Theorem unchecked_recommendation_fails_the_download :
  forall (today : jsstring) (page : Client.Page)
         (fields : list (jsstring * JSON)) (v : JSON) (others : list JSON),
    let report :=
      report_recommending (JObject ((lit "toString", v) :: fields) :: others) in
    Groq.validateReportStructure report = true
    /\ Client.generateAndDownload Number_text today (Some report) page
       = (Normal tt,
          {| Client.isDownloading := false;
             Client.downloads := Client.downloads page;
             Client.toasts :=
               Client.toasts page
                 ++ [ {| Client.toast_title := lit "Report Generation Failed";
                         Client.toast_description :=
                           lit "Cannot convert object to primitive value";
                         Client.destructive := true |} ] |}).
Proof.
  intros today page fields v others. cbv zeta. split; reflexivity.
Qed.

End Download.

(** The fallback report of Bob's task is downloaded. *)
Lemma report_download_witness :
  exists rest,
    Client.generateAndDownload (fun _ => lit "0") (lit "2025-01-31")
      (Some (Groq.getFallbackReport [Fixtures.bobs_task]))
      {| Client.isDownloading := false; Client.downloads := []; Client.toasts := [] |}
    = (Normal tt,
       {| Client.isDownloading := false;
          Client.downloads :=
            [(lit "task-report-2025-01-31.md", Props.report_heading ++ rest)];
          Client.toasts :=
            [ {| Client.toast_title := lit "Report Generated";
                 Client.toast_description :=
                   lit "Your report has been generated and downloaded successfully.";
                 Client.destructive := false |} ] |}).
Proof.
  exact (proj1 (@report_download (fun _ => lit "0") (lit "2025-01-31")
                  (Groq.getFallbackReport [Fixtures.bobs_task])
                  {| Client.isDownloading := false; Client.downloads := [];
                     Client.toasts := [] |}
                  eq_refl)).
Defined.

(** A reply with an inline code span before its JSON: the span is what is
    taken, not the JSON. *)
Lemma reply_with_nothing_to_parse_witness :
  exists found,
    Groq.jsonMatch (lit "Run `npm test` first. {}") = Some found
    /\ group1 found <> None.
Proof.
  exact (proj2 (proj2 (reply_with_nothing_to_parse (lit "Run `npm test` first. {}")))
           ltac:(vm_compute; lia)).
Defined.
